(** * tools/deploy.py: the contract deployment script

    A shallow embedding of [tools/deploy.py] and the properties its
    specification states about it.

    The script is glue around external collaborators (the solidity compiler,
    the account prompt, the JSON-RPC client, [eth_utils], [json], [ast]).
    Collaborators whose behaviour the script cannot constrain are fields of an
    environment record and every theorem about the script quantifies over
    them.  The parts of the Python runtime the script's own logic leans on
    are written out: [dict] as an insertion-ordered association list,
    [str.partition], [ast.NodeTransformer], [json.dumps] on a dict of
    strings.  [eth_utils.to_checksum_address] is given a model (EIP-55 over
    Keccak-256) that instantiates the environment in the examples. *)

From Stdlib Require Import String Ascii List ZArith NArith Lia Bool.
Import ListNotations.
Local Open Scope string_scope.
Local Open Scope Z_scope.
#[local] Set Warnings "-register-all".

(** ** Python's [ast] trees and [ast.NodeTransformer] *)

Module Ast.

Inductive expr_context := Load | Store | Del.

(** A field of a node, as [ast.iter_fields] yields it: one child node, a
    list of child nodes, or a value that is not a node. *)
Inductive field (N : Type) :=
| Child (n : N)
| Children (l : list N)
| Prim (v : string)
| Absent.
Arguments Child {N} n.
Arguments Children {N} l.
Arguments Prim {N} v.
Arguments Absent {N}.

(** The two node classes [RemoveLibraryDeref] looks into keep their
    attributes; every other class of [ast] (Module, FunctionDef, If, For,
    Call, ...) is a class name with its fields in [_fields] order. *)
Inductive node :=
| Name (col_offset : Z) (id : string) (ctx : expr_context)
| Assign (col_offset : Z) (targets : list node) (value : node)
| Other (cls : string) (col_offset : Z) (fields : list (string * field node)).

(** [RemoveLibraryDeref.visit_Assign]'s test. *)
Definition is_libraries (col_offset : Z) (targets : list node) : bool :=
  (Nat.eqb (length targets) 1) &&
  (col_offset =? 4) &&
  match targets with
  | Name _ id _ :: _ => String.eqb id "libraries"
  | _ => false
  end.

(** What [generic_visit] does with one field, given the visitor: a list is
    rebuilt from the items whose visit is not [None]; a child whose visit is
    [None] is deleted from the node. *)
Definition visit_field {N} (visit : N -> option N) (f : field N) : field N :=
  match f with
  | Child n => match visit n with Some n' => Child n' | None => Absent end
  | Children l =>
      Children (flat_map (fun n => match visit n with
                                   | Some n' => [n']
                                   | None => []
                                   end) l)
  | Prim v => Prim v
  | Absent => Absent
  end.

(** [RemoveLibraryDeref.visit_Assign]: [None] removes the node. *)
Definition visit_Assign (node : node) (col_offset : Z) (targets : list Ast.node)
  : option Ast.node :=
  if is_libraries col_offset targets then None else Some node.

(** [RemoveLibraryDeref().visit]: [visit_Assign] on an [Assign] node (which
    does not call [generic_visit]), [generic_visit] on every other node. *)
Fixpoint visit (n : node) : option node :=
  match n with
  | Assign col_offset targets value => visit_Assign n col_offset targets
  | Name _ _ _ => Some n
  | Other cls col_offset fields =>
      Some (Other cls col_offset
              (map (fun kf => (fst kf, visit_field visit (snd kf))) fields))
  end.

(** The [Assign] nodes of a tree in source order.  An [Assign] has only
    expressions below it, so the walk stops there, as the transformer's. *)
Definition assigns_field {N} (assigns : N -> list N) (f : field N) : list N :=
  match f with
  | Child n => assigns n
  | Children l => flat_map assigns l
  | Prim _ | Absent => []
  end.

Fixpoint assigns (n : node) : list node :=
  match n with
  | Assign _ _ _ => [n]
  | Name _ _ _ => []
  | Other _ _ fields => flat_map (fun kf => assigns_field assigns (snd kf)) fields
  end.

Definition assigns_opt (n : option node) : list node :=
  match n with Some n => assigns n | None => [] end.

(** The transformer's test as a predicate on a node. *)
Definition removed (n : node) : bool :=
  match n with
  | Assign col_offset targets _ => is_libraries col_offset targets
  | _ => false
  end.

(** A property of every node a field holds. *)
Definition field_Forall {N} (P : N -> Prop) (f : field N) : Prop :=
  match f with
  | Child n => P n
  | Children l => Forall P l
  | Prim _ | Absent => True
  end.

Definition kept (n : node) : bool := negb (removed n).

(** The source has the statement the patch is written for. *)
Definition has_pattern (n : node) : bool := existsb removed (assigns n).

End Ast.

(** ** The pieces of the Python runtime the script relies on *)

Module Py.

(** An exception, by the name of its class. *)
Inductive exn :=
| KeyError (key : string)
| ValueError (msg : string)
| TypeError (msg : string)
| OtherError (msg : string).

Inductive result (A : Type) :=
| Ok (a : A)
| Raise (e : exn).
Arguments Ok {A} a.
Arguments Raise {A} e.

(** A [dict] with [str] keys and [str] values: the entries in insertion
    order, no key twice. *)
Definition dict := list (string * string).

(** [d[k]] *)
Fixpoint dict_get (k : string) (d : dict) : option string :=
  match d with
  | [] => None
  | (k', v) :: d' => if String.eqb k k' then Some v else dict_get k d'
  end.

Definition dict_getitem (k : string) (d : dict) : result string :=
  match dict_get k d with
  | Some v => Ok v
  | None => Raise (KeyError k)
  end.

(** [d[k] = v]: a key already there keeps its place. *)
Fixpoint dict_set (k v : string) (d : dict) : dict :=
  match d with
  | [] => [(k, v)]
  | (k', v') :: d' =>
      if String.eqb k k' then (k', v) :: d' else (k', v') :: dict_set k v d'
  end.

(** [d.update(other)] *)
Definition dict_update (d other : dict) : dict :=
  fold_left (fun acc kv => dict_set (fst kv) (snd kv) acc) other d.

Definition keys (d : dict) : list string := map fst d.

(** The keys after [d[k] = v]. *)
Fixpoint add_key (k : string) (ks : list string) : list string :=
  match ks with
  | [] => [k]
  | k' :: rest => if String.eqb k k' then ks else k' :: add_key k rest
  end.

(** [s.partition(sep)] for a separator of one character. *)
Fixpoint partition (sep : ascii) (s : string) : string * string * string :=
  match s with
  | EmptyString => (EmptyString, EmptyString, EmptyString)
  | String c rest =>
      if Ascii.eqb c sep then (EmptyString, String sep EmptyString, rest)
      else let '(before, found, after) := partition sep rest in
           (String c before, found, after)
  end.

Fixpoint has_slash (s : string) : bool :=
  match s with
  | EmptyString => false
  | String c rest => (Ascii.eqb c "/" || has_slash rest)%bool
  end.

(** [os.path.split(path)[-1]]: what follows the last slash. *)
Fixpoint basename (path : string) : string :=
  match path with
  | EmptyString => EmptyString
  | String c rest =>
      if (Ascii.eqb c "/" || has_slash rest)%bool then basename rest else path
  end.

Definition newline : ascii := ascii_of_nat 10.

Definition hex_digit (n : nat) : ascii :=
  nth n (list_ascii_of_string "0123456789abcdef") "0"%char.

Definition dquote : ascii := ascii_of_nat 34.
Definition backslash : ascii := ascii_of_nat 92.

(** A backslash followed by [s]. *)
Definition esc (s : string) : string := String backslash s.

(** [json.encoder.py_encode_basestring_ascii] on one character (a code point
    below 256): the two-character escapes, the printable ASCII range as it
    is, [\u00xx] for the rest. *)
Definition json_escape_char (c : ascii) : string :=
  let n := nat_of_ascii c in
  if Nat.eqb n 34 then esc (String dquote EmptyString)
  else if Nat.eqb n 92 then esc (String backslash EmptyString)
  else if Nat.eqb n 10 then esc "n"
  else if Nat.eqb n 13 then esc "r"
  else if Nat.eqb n 9 then esc "t"
  else if Nat.eqb n 8 then esc "b"
  else if Nat.eqb n 12 then esc "f"
  else if (Nat.leb 32 n && Nat.leb n 126)%bool then String c EmptyString
  else esc ("u00" ++ String (hex_digit (n / 16))
                       (String (hex_digit (n mod 16)) EmptyString)).

Fixpoint json_escape (s : string) : string :=
  match s with
  | EmptyString => EmptyString
  | String c rest => json_escape_char c ++ json_escape rest
  end.

Definition json_string (s : string) : string :=
  String dquote (json_escape s ++ String dquote EmptyString).

Definition json_item (kv : string * string) : string :=
  json_string (fst kv) ++ ": " ++ json_string (snd kv).

Fixpoint spaces (n : nat) : string :=
  match n with
  | O => EmptyString
  | S n' => String " "%char (spaces n')
  end.

(** [json.dumps(d, indent=indent)] for a dict of strings: with [indent=None]
    the separators are [', '] and [': ']; with a number they are [','] and
    [': '], and every item starts a new line indented by that many spaces. *)
Definition json_dumps (d : dict) (indent : option nat) : string :=
  match d with
  | [] => "{}"
  | _ :: _ =>
      match indent with
      | None => "{" ++ String.concat ", " (map json_item d) ++ "}"
      | Some n =>
          let newline_indent := String newline (spaces n) in
          "{" ++ newline_indent
              ++ String.concat ("," ++ newline_indent) (map json_item d)
              ++ String newline "}"
      end
  end.

(** [text.split('\n')] *)
Fixpoint lines (text : string) : list string :=
  match text with
  | EmptyString => [EmptyString]
  | String c rest =>
      if Ascii.eqb c newline then EmptyString :: lines rest
      else match lines rest with
           | l :: ls => String c l :: ls
           | [] => [String c EmptyString]
           end
  end.

Fixpoint has_newline (text : string) : bool :=
  match text with
  | EmptyString => false
  | String c rest => (Ascii.eqb c newline || has_newline rest)%bool
  end.

(** [c in s] for a character. *)
Fixpoint contains (c : ascii) (s : string) : bool :=
  match s with
  | EmptyString => false
  | String c' rest => (Ascii.eqb c' c || contains c rest)%bool
  end.

(** A line that starts with [n] spaces and a quoted string. *)
Definition indented_by (n : nat) (line : string) : Prop :=
  exists rest, line = spaces n ++ String dquote rest.

(** The lines between the braces of an indented dump: every item after
    [n] spaces, a comma after all but the last. *)
Fixpoint item_lines (n : nat) (items : list string) : list string :=
  match items with
  | [] => []
  | [item] => [spaces n ++ item]
  | item :: rest => (spaces n ++ item ++ ",") :: item_lines n rest
  end.

End Py.

(** ** Keccak-256, the hash under Ethereum's address checksum *)

Module Keccak.

Local Open Scope N_scope.

Definition mask64 : N := N.ones 64.

Definition rotl64 (x n : N) : N :=
  N.lor (N.land (N.shiftl x n) mask64) (N.shiftr x (64 - n)).

(** The state: 25 lanes of 64 bits, lane (x, y) at index x + 5 y. *)
Definition lane (A : list N) (x y : nat) : N :=
  nth ((x mod 5) + 5 * (y mod 5))%nat A 0.

Definition lanes (f : nat -> nat -> N) : list N :=
  map (fun i => f (i mod 5)%nat (i / 5)%nat) (seq 0 25).

Definition rotation_offsets : list N :=
  [ 0;  1; 62; 28; 27;
   36; 44;  6; 55; 20;
    3; 10; 43; 25; 39;
   41; 45; 15; 21;  8;
   18;  2; 61; 56; 14].

Definition round_constants : list N :=
  [0x0000000000000001; 0x0000000000008082; 0x800000000000808A;
   0x8000000080008000; 0x000000000000808B; 0x0000000080000001;
   0x8000000080008081; 0x8000000000008009; 0x000000000000008A;
   0x0000000000000088; 0x0000000080008009; 0x000000008000000A;
   0x000000008000808B; 0x800000000000008B; 0x8000000000008089;
   0x8000000000008003; 0x8000000000008002; 0x8000000000000080;
   0x000000000000800A; 0x800000008000000A; 0x8000000080008081;
   0x8000000000008080; 0x0000000080000001; 0x8000000080008008].

Definition theta (A : list N) : list N :=
  let C x := fold_left N.lxor (map (lane A x) (seq 0 5)) 0 in
  let D x := N.lxor (C (x + 4)%nat) (rotl64 (C (x + 1)%nat) 1) in
  lanes (fun x y => N.lxor (lane A x y) (D x)).

(** rho and pi together: lane (x, y) rotated lands at (y, 2x + 3y). *)
Definition rho_pi (A : list N) : list N :=
  lanes (fun X Y =>
           let x := ((X + 3 * Y) mod 5)%nat in
           rotl64 (lane A x X) (lane rotation_offsets x X)).

Definition chi (A : list N) : list N :=
  lanes (fun x y =>
           N.lxor (lane A x y)
                  (N.ldiff (lane A (x + 2) y) (lane A (x + 1) y))).

Definition iota (rc : N) (A : list N) : list N :=
  match A with
  | a :: rest => N.lxor a rc :: rest
  | [] => []
  end.

Definition round (A : list N) (rc : N) : list N :=
  iota rc (chi (rho_pi (theta A))).

Definition keccak_f (A : list N) : list N :=
  fold_left round round_constants A.

(** Eight bytes, least significant first, as a lane and back. *)
Fixpoint lane_of_bytes (bs : list N) : N :=
  match bs with
  | [] => 0
  | b :: rest => b + 256 * lane_of_bytes rest
  end.

Fixpoint bytes_of_lane (n : nat) (l : N) : list N :=
  match n with
  | O => []
  | S n' => (l mod 256) :: bytes_of_lane n' (l / 256)
  end.

Fixpoint chunks {A} (count size : nat) (l : list A) : list (list A) :=
  match count with
  | O => []
  | S count' => firstn size l :: chunks count' size (skipn size l)
  end.

Definition rate : nat := 136.

(** Keccak's padding (domain byte 0x01, final bit 0x80) up to a whole number
    of blocks of [rate] bytes. *)
Definition pad (msg : list N) : list N :=
  let fill := (rate - 1 - (length msg mod rate))%nat in
  match fill with
  | O => msg ++ [0x81]
  | S k => msg ++ [0x01] ++ repeat 0 k ++ [0x80]
  end.

Fixpoint xor_lanes (A block : list N) : list N :=
  match A, block with
  | a :: A', b :: block' => N.lxor a b :: xor_lanes A' block'
  | _, [] => A
  | [], _ => []
  end.

Definition absorb (A : list N) (block : list N) : list N :=
  keccak_f (xor_lanes A (map lane_of_bytes (chunks (rate / 8) 8 block))).

Definition keccak256 (msg : list N) : list N :=
  let padded := pad msg in
  let blocks := chunks (length padded / rate) rate padded in
  let A := fold_left absorb blocks (repeat 0 25) in
  firstn 32 (flat_map (bytes_of_lane 8) A).

Definition bytes_of_string (s : string) : list N :=
  map N_of_ascii (list_ascii_of_string s).

Definition hex_of_byte (b : N) : list ascii :=
  [Py.hex_digit (N.to_nat (b / 16)); Py.hex_digit (N.to_nat (b mod 16))].

(** The digest of a text, as 64 lower-case hexadecimal digits. *)
Definition keccak256_hex (text : string) : string :=
  string_of_list_ascii (flat_map hex_of_byte (keccak256 (bytes_of_string text))).

End Keccak.

(** ** [eth_utils.to_checksum_address] *)

Module EthUtils.

Import Py.

Definition is_digit (c : ascii) : bool :=
  let n := nat_of_ascii c in (Nat.leb 48 n && Nat.leb n 57)%bool.

Definition is_lower_hex (c : ascii) : bool :=
  let n := nat_of_ascii c in (Nat.leb 97 n && Nat.leb n 102)%bool.

Definition is_upper_hex (c : ascii) : bool :=
  let n := nat_of_ascii c in (Nat.leb 65 n && Nat.leb n 70)%bool.

Definition is_hex_char (c : ascii) : bool :=
  (is_digit c || is_lower_hex c || is_upper_hex c)%bool.

(** [str.lower] and [str.upper] on ASCII text. *)
Definition lower_char (c : ascii) : ascii :=
  let n := nat_of_ascii c in
  if (Nat.leb 65 n && Nat.leb n 90)%bool then ascii_of_nat (n + 32) else c.

Definition upper_char (c : ascii) : ascii :=
  let n := nat_of_ascii c in
  if (Nat.leb 97 n && Nat.leb n 122)%bool then ascii_of_nat (n - 32) else c.

Definition lower (s : list ascii) : list ascii := map lower_char s.

(** The value of a hexadecimal digit ([int(c, 16)]). *)
Definition hex_value (c : ascii) : nat :=
  let n := nat_of_ascii c in
  if is_digit c then (n - 48)%nat
  else if is_lower_hex c then (n - 87)%nat
  else if is_upper_hex c then (n - 55)%nat
  else 0%nat.

Definition is_0x_prefixed (s : list ascii) : bool :=
  match s with
  | "0"%char :: x :: _ => (Ascii.eqb x "x" || Ascii.eqb x "X")%bool
  | _ => false
  end.

Definition remove_0x_prefix (s : list ascii) : list ascii :=
  if is_0x_prefixed s then skipn 2 s else s.

Definition add_0x_prefix (s : list ascii) : list ascii :=
  if is_0x_prefixed s then s else "0"%char :: "x"%char :: s.

(** [is_hex_address]: forty hexadecimal digits after an optional prefix. *)
Definition is_hex_address (s : list ascii) : bool :=
  let unprefixed := remove_0x_prefix s in
  (forallb is_hex_char unprefixed && Nat.eqb (length unprefixed) 40)%bool.

(** [to_normalized_address]: the address in lower case with its prefix. *)
Definition to_normalized_address (value : string) : result (list ascii) :=
  let hex_address := lower (add_0x_prefix (lower (list_ascii_of_string value))) in
  if is_hex_address hex_address then Ok hex_address
  else Raise (ValueError ("Unknown format " ++ value)).

(** A letter of the address is put in upper case when the digit of the hash
    at its place is above 7.  (A digest has 64 digits; a hash that ran out
    would count as digit 0.) *)
Fixpoint checksum_case (address hash : list ascii) : list ascii :=
  match address with
  | [] => []
  | c :: address' =>
      (if Nat.ltb 7 (hex_value (hd "0"%char hash)) then upper_char c else c)
        :: checksum_case address' (tl hash)
  end.

(** Modelled from the spec: [to_checksum_address] is imported from
    [eth_utils]; the glossary names its result, the mixed-case encoding of a
    20-byte address whose capitalisation is a checksum (EIP-55).  The hash is
    a parameter: the digest of the lower-case digits, as hexadecimal text. *)
Definition to_checksum_address_with
    (hash_hex : string -> string) (value : string) : result string :=
  match to_normalized_address value with
  | Raise e => Raise e
  | Ok norm_address =>
      let digits := remove_0x_prefix norm_address in
      let address_hash :=
        list_ascii_of_string (hash_hex (string_of_list_ascii digits)) in
      Ok (string_of_list_ascii
            (add_0x_prefix (checksum_case digits address_hash)))
  end.

Definition to_checksum_address : string -> result string :=
  to_checksum_address_with Keccak.keccak256_hex.

(** A syntactically valid hex address: forty hexadecimal digits, in either
    case, with or without the [0x] prefix. *)
Definition valid_hex_address (value : string) : bool :=
  is_hex_address (list_ascii_of_string value).

End EthUtils.

(** ** The script *)

Module Deploy.

Import Py.

(** Source files for all to be deployed solidity contracts. *)
Definition RAIDEN_CONTRACT_FILES : list string :=
  [ "NettingChannelLibrary.sol";
    "ChannelManagerLibrary.sol";
    "Registry.sol";
    "EndpointRegistry.sol" ].

(** Top level contracts to be deployed. *)
Definition CONTRACTS_TO_DEPLOY : list string :=
  [ "Registry.sol:Registry";
    "EndpointRegistry.sol:EndpointRegistry" ].

(** The proxy a deployment returns. *)
Record proxy := { contract_address : string }.

(** What the script does that the outside can see, in the order it does it. *)
Inductive event :=
| ConfigureLogging
| LogInfo (msg : string)
| NewClient (host : string) (port : Z) (privatekey : string) (gas_price : Z)
| DeployCall (contract_name : string) (libraries : dict)
             (constructor_parameters : string) (contract_path : string)
| Print (text : string).

(** The command line options of [main], with the defaults [click] gives
    them. *)
Record options := {
  keystore_path : option string;
  pretty : bool;
  gas_price : Z;
  port : Z
}.

Definition default_options : options :=
  {| keystore_path := None; pretty := false; gas_price := 4; port := 8545 |}.

Section Script.

(** [World] is everything outside the script: the node, the file system, the
    terminal, the client's own fields.  [Compiled] is the table
    [compile_files_cwd] returns, [Client] a [JSONRPCClient] instance, [Code]
    a code object. *)
Context {World Compiled Client Code : Type}.

(** [JSONRPCClient.deploy_solidity_contract(self, contract_name,
    all_contracts, libraries, constructor_parameters, contract_path)].  The
    dict [libraries] is passed by reference: a call that returns gives the
    proxy together with what the caller's dict holds by then (the dict as it
    was passed if the method worked on a copy, the dict with the method's
    writes if it did not). *)
Definition deploy_method : Type :=
  Client -> string -> Compiled -> dict -> string -> string ->
  World -> result (proxy * dict) * World.

(** The collaborators the script imports. *)
Record Env := {
  prompt_account : option string -> World -> result (string * string) * World;
  get_contract_path : string -> string;
  compile_files_cwd : list string -> World -> result Compiled * World;
  JSONRPCClient : string -> Z -> string -> Z -> World -> result Client * World;
  to_checksum_address : string -> result string;
  (** [compile(tree, filename, 'exec')]; the tree is [None] when the
      transformer removed the root. *)
  py_compile : option Ast.node -> result Code;
  (** [exec(code, globals, ctx)]: the functions [ctx] holds afterwards. *)
  py_exec : Code -> result (list (string * deploy_method))
}.

(** The state the script changes: the world, and the class attribute
    [JSONRPCClient.deploy_solidity_contract].  [method_source] is the tree
    [ast.parse(dedent(getsource(...)))] gives for the method as upstream
    defines it, which is what the patch step of a run reads; the script
    patches once, and what [getsource] would return for a method that has
    been rebound is not followed. *)
Record state := {
  world : World;
  method_source : Ast.node;
  method : deploy_method
}.

(** A computation either returns or raises, changes the state and emits
    events. *)
Definition M (A : Type) : Type := state -> result A * state * list event.

Definition ret {A} (a : A) : M A := fun s => (Ok a, s, []).

Definition raise {A} (e : exn) : M A := fun s => (Raise e, s, []).

Definition bind {A B} (m : M A) (k : A -> M B) : M B :=
  fun s =>
    match m s with
    | (Ok a, s1, evs1) =>
        let '(r, s2, evs2) := k a s1 in (r, s2, (evs1 ++ evs2)%list)
    | (Raise e, s1, evs1) => (Raise e, s1, evs1)
    end.

Notation "x <- m ;; k" := (bind m (fun x => k))
  (at level 61, m at next level, right associativity).
Notation "m ;;; k" := (bind m (fun _ => k))
  (at level 61, right associativity).

Definition emit (e : event) : M unit := fun s => (Ok tt, s, [e]).

(** A pure call that may raise. *)
Definition lift {A} (r : result A) : M A := fun s => (r, s, []).

Definition set_world (s : state) (w : World) : state :=
  {| world := w; method_source := method_source s; method := method s |}.

(** A call into the world. *)
Definition call {A} (f : World -> result A * World) : M A :=
  fun s => let '(r, w) := f (world s) in (r, set_world s w, []).

Definition log_info (msg : string) : M unit := emit (LogInfo msg).

Definition print (text : string) : M unit := emit (Print text).

Fixpoint for_each {A B} (l : list A) (body : A -> B -> M B) (acc : B) : M B :=
  match l with
  | [] => ret acc
  | x :: l' => acc' <- body x acc ;; for_each l' body acc'
  end.

Variable env : Env.

(** [ast.parse(dedent(getsource(JSONRPCClient.deploy_solidity_contract)))] *)
Definition parse_method_source : M Ast.node :=
  fun s => (Ok (method_source s), s, []).

(** [JSONRPCClient.deploy_solidity_contract = f].  The upstream source
    stays on record; it is not the source of [f]. *)
Definition set_method (f : deploy_method) : M unit :=
  fun s =>
    (Ok tt, {| world := world s; method_source := method_source s; method := f |}, []).

(** The method returns the dict it was passed as it was passed: it worked
    on a copy, or wrote nothing. *)
Definition leaves_libraries (f : deploy_method) : Prop :=
  forall client name compiled libraries params path w proxy written w',
    f client name compiled libraries params path w = (Ok (proxy, written), w') ->
    written = libraries.

(** [ctx['deploy_solidity_contract']] *)
Definition ctx_getitem (key : string) (ctx : list (string * deploy_method))
  : result deploy_method :=
  match find (fun kv => String.eqb (fst kv) key) ctx with
  | Some (_, f) => Ok f
  | None => Raise (KeyError key)
  end.

(** The second half of [patch_deploy_solidity_contract]: compile the tree,
    execute it, and bind the function it defines as the class's method. *)
Definition rebind (ast_ : option Ast.node) : M unit :=
  code <- lift (py_compile env ast_) ;;
  ctx <- lift (py_exec env code) ;;
  f <- lift (ctx_getitem "deploy_solidity_contract" ctx) ;;
  set_method f.

(** [patch_deploy_solidity_contract] *)
Definition patch_deploy_solidity_contract : M unit :=
  ast_ <- parse_method_source ;;
  let ast_ := Ast.visit ast_ in
  rebind ast_.

(** [client.deploy_solidity_contract(...)]: the call goes to the method the
    class holds at that moment. *)
Definition deploy_solidity_contract (client : Client) (contract_name : string)
    (all_contracts : Compiled) (libraries : dict)
    (constructor_parameters contract_path : string) : M (proxy * dict) :=
  emit (DeployCall contract_name libraries constructor_parameters contract_path) ;;;
  (fun s => call (method s client contract_name all_contracts libraries
                    constructor_parameters contract_path) s).

(** [name_from_file] *)
Definition name_from_file (filename : string) : string :=
  fst (fst (partition "."%char (basename filename))).

(** [deploy_file] *)
Definition deploy_file (contract : string) (compiled_contracts : Compiled)
    (client : Client) : M dict :=
  let libraries : dict := [] in
  let '(filename, _, name) := partition ":"%char contract in
  log_info ("Deploying " ++ name) ;;;
  r <- deploy_solidity_contract client name compiled_contracts libraries
         "" filename ;;
  let '(proxy, libraries) := r in
  checksum <- lift (to_checksum_address env (contract_address proxy)) ;;
  log_info ("Deployed " ++ name ++ " @ " ++ checksum) ;;;
  let libraries := dict_set contract (contract_address proxy) libraries in
  ret libraries.

(** The body of the loop of [deploy_all]:
    [deployed.update(deploy_file(contract, compiled_contracts, client))]. *)
Definition deploy_all_step (compiled_contracts : Compiled) (client : Client)
    (contract : string) (deployed : dict) : M dict :=
  libraries <- deploy_file contract compiled_contracts client ;;
  ret (dict_update deployed libraries).

(** [deploy_all] *)
Definition deploy_all (client : Client) : M dict :=
  let contracts_expanded := map (get_contract_path env) RAIDEN_CONTRACT_FILES in
  compiled_contracts <- call (compile_files_cwd env contracts_expanded) ;;
  let deployed : dict := [] in
  for_each CONTRACTS_TO_DEPLOY (deploy_all_step compiled_contracts client) deployed.

(** [get_privatekey] *)
Definition get_privatekey (keystore_path : option string) : M string :=
  r <- call (prompt_account env keystore_path) ;;
  let '(address_hex, privatekey) := r in
  ret privatekey.

(** The end of [main], from the dict [deploy_all] returned on: the two
    checksum conversions and the [print]. *)
Definition main_output (pretty : bool) (deployed : dict) : M unit :=
  raw <- lift (dict_getitem "EndpointRegistry.sol:EndpointRegistry" deployed) ;;
  checksum <- lift (to_checksum_address env raw) ;;
  let deployed := dict_set "EndpointRegistry.sol:EndpointRegistry" checksum deployed in
  raw <- lift (dict_getitem "Registry.sol:Registry" deployed) ;;
  checksum <- lift (to_checksum_address env raw) ;;
  let deployed := dict_set "Registry.sol:Registry" checksum deployed in
  print (json_dumps deployed (if pretty then Some 2%nat else None)).

(** [main] *)
Definition main (opts : options) : M unit :=
  emit ConfigureLogging ;;;
  privatekey <- get_privatekey (keystore_path opts) ;;
  let gas_price_in_wei := gas_price opts * 1000000000 in
  patch_deploy_solidity_contract ;;;
  let host := "127.0.0.1" in
  client <- (emit (NewClient host (port opts) privatekey gas_price_in_wei) ;;;
             call (JSONRPCClient env host (port opts) privatekey gas_price_in_wei)) ;;
  deployed <- deploy_all client ;;
  main_output (pretty opts) deployed.

End Script.

(** *** Reading a trace *)

(** The deployment calls of a trace: name, libraries, constructor
    parameters and path of each, in order. *)
Definition deploy_calls (evs : list event) : list (string * dict * string * string) :=
  flat_map (fun ev => match ev with
                      | DeployCall name libraries params path =>
                          [(name, libraries, params, path)]
                      | _ => []
                      end) evs.

(** The Contract Reference a deployment call is for. *)
Definition call_reference (c : string * dict * string * string) : string :=
  let '(name, _, _, path) := c in path ++ ":" ++ name.

Definition call_libraries (c : string * dict * string * string) : dict :=
  let '(_, libraries, _, _) := c in libraries.

(** What [print] was called with. *)
Definition printed (evs : list event) : list string :=
  flat_map (fun ev => match ev with Print text => [text] | _ => [] end) evs.

(** The arguments of the [JSONRPCClient(...)] constructions. *)
Definition new_clients (evs : list event) : list (string * Z * string * Z) :=
  flat_map (fun ev => match ev with
                      | NewClient host port privatekey gas_price =>
                          [(host, port, privatekey, gas_price)]
                      | _ => []
                      end) evs.

(** The call [deploy_file] makes for a Contract Reference: the contract's
    name, an empty [libraries], no constructor parameters, the file. *)
Definition expected_call (contract : string) : string * dict * string * string :=
  let '(filename, _, name) := partition ":"%char contract in
  (name, [], "", filename).

(** Events of a deployment: log lines and deployment calls. *)
Definition deployment_event (ev : event) : Prop :=
  match ev with
  | LogInfo _ | DeployCall _ _ _ _ => True
  | _ => False
  end.

(** Every call finds, in the map it is given, the references of the calls
    before it ([seen]). *)
Fixpoint calls_linked (seen : list string)
    (calls : list (string * dict * string * string)) : bool :=
  match calls with
  | [] => true
  | c :: rest =>
      (forallb (fun k => match dict_get k (call_libraries c) with
                         | Some _ => true
                         | None => false
                         end) seen
       && calls_linked (call_reference c :: seen) rest)%bool
  end.

End Deploy.

(** ** A test double for the collaborators

    The scenario of the specification: a client whose deployments return
    [0xaaaa...] for [Registry] and [0xbbbb...] for [EndpointRegistry].  The
    upstream method deploys the libraries a contract links against and
    records their addresses, without prefix, in its [libraries] dict. *)

Module Mock.

Import Py Ast Deploy.

Record client := {
  host : string;
  client_port : Z;
  privatekey : string;
  client_gas_price : Z
}.

Fixpoint replicate (n : nat) (c : ascii) : string :=
  match n with
  | O => EmptyString
  | S n' => String c (replicate n' c)
  end.

Definition registry_address : string := "0x" ++ replicate 40 "a".
Definition endpoint_registry_address : string := "0x" ++ replicate 40 "b".
Definition netting_channel_library_address : string := replicate 40 "c".
Definition channel_manager_library_address : string := replicate 40 "d".

(** The world counts the transactions sent. *)
Definition world := nat.

(** The method's body after its first lines: for [Registry] the two
    libraries are deployed and recorded first. *)
Definition deploy_body (contract_name : string) (libraries : dict)
  : proxy * dict * nat :=
  if String.eqb contract_name "Registry" then
    ({| contract_address := registry_address |},
     dict_set "ChannelManagerLibrary.sol:ChannelManagerLibrary"
       channel_manager_library_address
       (dict_set "NettingChannelLibrary.sol:NettingChannelLibrary"
          netting_channel_library_address libraries),
     3%nat)
  else
    ({| contract_address := endpoint_registry_address |}, libraries, 1%nat).

(** The method, working on a copy of [libraries] ([copies = true], as
    upstream) or on the caller's dict. *)
Definition deploy_method (copies : bool)
  : @Deploy.deploy_method world unit client :=
  fun self contract_name all_contracts libraries constructor_parameters
      contract_path w =>
    let '(proxy, written, sent) := deploy_body contract_name libraries in
    (Ok (proxy, if copies then libraries else written), (w + sent)%nat).

Definition call_ (func : string) (args : list node) : node :=
  Other "Call" 0 [("func", Child (Name 0 func Load)); ("args", Children args)].

(** [libraries = dict(libraries)] at the given column. *)
Definition copy_statement (col_offset : Z) : node :=
  Assign col_offset [Name col_offset "libraries" Store]
         (call_ "dict" [Name 0 "libraries" Load]).

Definition function_def (name : string) (body : list node) : node :=
  Other "FunctionDef" 0
        [("name", Prim name);
         ("args", Child (Other "arguments" 0 []));
         ("body", Children body)].

Definition module_ (body : list node) : node :=
  Other "Module" 0 [("body", Children body)].

(** The statements of the method other than the copy: a default for
    [libraries], the deployment, the return. *)
Definition default_libraries : node :=
  Other "If" 4
        [("test", Child (Other "Compare" 7 [("left", Child (Name 7 "libraries" Load))]));
         ("body", Children [Assign 8 [Name 8 "libraries" Store] (call_ "dict" [])]);
         ("orelse", Children [])].

Definition deploy_and_return : list node :=
  [ Assign 4 [Name 4 "proxy" Store] (call_ "deploy" [Name 0 "libraries" Load]);
    Other "Return" 4 [("value", Child (Name 11 "proxy" Load))] ].

(** The upstream source, and a later upstream without the copy. *)
Definition upstream_source : node :=
  module_ [function_def "deploy_solidity_contract"
             (default_libraries :: copy_statement 4 :: deploy_and_return)].

Definition fixed_upstream_source : node :=
  module_ [function_def "deploy_solidity_contract"
             (default_libraries :: deploy_and_return)].

Definition field_of (key : string) (fields : list (string * field node))
  : option (field node) :=
  option_map snd (find (fun kf => String.eqb (fst kf) key) fields).

(** Executing a module defines its functions; a function copies
    [libraries] when its body still has the copy statement. *)
Definition define (n : node) : list (string * @Deploy.deploy_method world unit client) :=
  match n with
  | Other "FunctionDef" _ fields =>
      match field_of "name" fields, field_of "body" fields with
      | Some (Prim name), Some (Children body) =>
          [(name, deploy_method (existsb removed body))]
      | _, _ => []
      end
  | _ => []
  end.

Definition exec (code : node) : result (list (string * @Deploy.deploy_method world unit client)) :=
  match code with
  | Other "Module" _ fields =>
      match field_of "body" fields with
      | Some (Children body) => Ok (flat_map define body)
      | _ => Ok []
      end
  | _ => Raise (TypeError "expected a module")
  end.

Definition compile (tree : option node) : result node :=
  match tree with
  | Some n => Ok n
  | None => Raise (TypeError "compile() arg 1 must be a string, bytes or AST object")
  end.

Definition env (to_checksum_address : string -> result string)
  : @Env world unit client node :=
  {| prompt_account := fun _ w => (Ok ("0x" ++ replicate 40 "e", "key"), w);
     get_contract_path := fun x => "raiden/smart_contracts/" ++ x;
     compile_files_cwd := fun _ w => (Ok tt, w);
     JSONRPCClient := fun h p k g w =>
       (Ok {| host := h; client_port := p; privatekey := k; client_gas_price := g |}, w);
     Deploy.to_checksum_address := to_checksum_address;
     py_compile := compile;
     py_exec := exec |}.

Definition eip55 : @Env world unit client node := env EthUtils.to_checksum_address.

(** The process at start: the method is upstream's, as its source says. *)
Definition start (source : node) : @state world unit client :=
  {| Deploy.world := 0%nat;
     method_source := source;
     method := deploy_method (existsb removed (flat_map assigns [source])) |}.

(** The process after the patch step: the method works on the caller's
    dict. *)
Definition patched : @state world unit client :=
  {| Deploy.world := 0%nat;
     method_source := upstream_source;
     method := deploy_method false |}.

(** A client whose deployment of the contract named [fail_on] is reverted;
    the others go through as with the patched method. *)
Definition failing_method (fail_on : string)
  : @Deploy.deploy_method world unit client :=
  fun self contract_name all_contracts libraries constructor_parameters
      contract_path w =>
    if String.eqb contract_name fail_on
    then (Raise (OtherError "transaction reverted"), (w + 1)%nat)
    else deploy_method false self contract_name all_contracts libraries
           constructor_parameters contract_path w.

Definition failing (fail_on : string) : @state world unit client :=
  {| Deploy.world := 0%nat;
     method_source := upstream_source;
     method := failing_method fail_on |}.

Definition a_client : client :=
  {| host := "127.0.0.1"; client_port := 8545; privatekey := "key";
     client_gas_price := 4000000000 |}.

End Mock.

(** * Properties *)

(** ** The transformer *)

Module AstFacts.

Import Ast.

Lemma node_induction (P : node -> Prop)
    (HName : forall c id ctx, P (Name c id ctx))
    (HAssign : forall c targets value, P (Assign c targets value))
    (HOther : forall cls c fields,
        Forall (fun kf => field_Forall P (snd kf)) fields ->
        P (Other cls c fields)) :
  forall n, P n.
Proof.
  fix IH 1. intros [c id ctx | c targets value | cls c fields].
  - apply HName.
  - apply HAssign.
  - apply HOther.
    induction fields as [| [k f] fields IHfields]; constructor; [| exact IHfields].
    destruct f as [n | l | v |]; simpl; auto.
    induction l as [| n l IHl]; constructor; [apply IH | exact IHl].
Qed.

Lemma filter_flat_map {A B} (p : B -> bool) (f : A -> list B) (l : list A) :
  filter p (flat_map f l) = flat_map (fun x => filter p (f x)) l.
Proof.
  induction l as [| x l IHl]; simpl; [reflexivity |].
  now rewrite filter_app, IHl.
Qed.

Lemma flat_map_flat_map {A B C} (f : A -> list B) (g : B -> list C) (l : list A) :
  flat_map g (flat_map f l) = flat_map (fun x => flat_map g (f x)) l.
Proof.
  induction l as [| x l IHl]; simpl; [reflexivity |].
  now rewrite flat_map_app, IHl.
Qed.

Lemma flat_map_ext_Forall {A B} (f g : A -> list B) (l : list A) :
  Forall (fun x => f x = g x) l -> flat_map f l = flat_map g l.
Proof.
  induction 1 as [| x l Hx _ IHl]; simpl; [reflexivity |].
  now rewrite Hx, IHl.
Qed.

Lemma assigns_visit (n : node) :
  assigns_opt (visit n) = filter kept (assigns n).
Proof.
  induction n as [c id ctx | c targets value | cls c fields IH] using node_induction.
  - reflexivity.
  - unfold kept. simpl. unfold visit_Assign.
    destruct (is_libraries c targets); reflexivity.
  - simpl. rewrite flat_map_concat_map, map_map, <- flat_map_concat_map.
    rewrite filter_flat_map. apply flat_map_ext_Forall.
    eapply Forall_impl; [| exact IH]. intros [k f] Hf. simpl in *.
    destruct f as [n | l | v |]; simpl in *; try reflexivity.
    + rewrite <- Hf. destruct (visit n); reflexivity.
    + rewrite flat_map_flat_map, filter_flat_map.
      apply flat_map_ext_Forall. eapply Forall_impl; [| exact Hf].
      intros n Hn. simpl in Hn. rewrite <- Hn.
      destruct (visit n); simpl; [apply app_nil_r | reflexivity].
Qed.

Lemma visit_without_pattern (n : node) :
  has_pattern n = false -> visit n = Some n.
Proof.
  unfold has_pattern.
  induction n as [c id ctx | c targets value | cls c fields IH] using node_induction;
    intros Hn.
  - reflexivity.
  - simpl in *. unfold visit_Assign. rewrite orb_false_r in Hn. now rewrite Hn.
  - simpl in *. f_equal. f_equal.
    induction IH as [| [k f] fields Hf _ IHfields]; simpl in *; [reflexivity |].
    rewrite existsb_app in Hn. apply orb_false_elim in Hn as [Hf' Hfields].
    rewrite (IHfields Hfields). f_equal. f_equal.
    destruct f as [n | l | v |]; simpl in *; try reflexivity.
    + now rewrite (Hf Hf').
    + f_equal. induction Hf as [| n l Hn' _ IHl]; simpl in *; [reflexivity |].
      rewrite existsb_app in Hf'. apply orb_false_elim in Hf' as [H1 H2].
      now rewrite (Hn' H1), (IHl H2).
Qed.

End AstFacts.

(** ** The address checksum *)

Module EthFacts.

Import Py EthUtils.

Ltac by_cases_on_char c :=
  destruct c as [[] [] [] [] [] [] [] []]; vm_compute; intros;
  try reflexivity; try discriminate; try congruence.

Lemma lower_char_idempotent (c : ascii) : lower_char (lower_char c) = lower_char c.
Proof. by_cases_on_char c. Qed.

Lemma lower_char_hex (c : ascii) :
  is_hex_char c = true -> is_hex_char (lower_char c) = true.
Proof. by_cases_on_char c. Qed.

Lemma lower_upper_char (c : ascii) :
  is_hex_char c = true -> lower_char (upper_char c) = lower_char c.
Proof. by_cases_on_char c. Qed.

Lemma upper_char_not_x (c : ascii) :
  is_hex_char c = true ->
  (Ascii.eqb (upper_char c) "x" || Ascii.eqb (upper_char c) "X")%bool = false.
Proof. by_cases_on_char c. Qed.

Lemma hex_char_not_x (c : ascii) :
  is_hex_char c = true -> (Ascii.eqb c "x" || Ascii.eqb c "X")%bool = false.
Proof. by_cases_on_char c. Qed.

Lemma lower_char_x (c : ascii) :
  (Ascii.eqb c "x" || Ascii.eqb c "X")%bool = true -> lower_char c = "x"%char.
Proof. by_cases_on_char c. Qed.

Lemma lower_idempotent (s : list ascii) : lower (lower s) = lower s.
Proof.
  unfold lower. rewrite map_map. apply map_ext. apply lower_char_idempotent.
Qed.

Lemma lower_hex (s : list ascii) :
  forallb is_hex_char s = true -> forallb is_hex_char (lower s) = true.
Proof.
  induction s as [| c s IHs]; simpl; [reflexivity |].
  intros H. apply andb_prop in H as [Hc Hs].
  now rewrite (lower_char_hex c Hc), (IHs Hs).
Qed.

Lemma lower_length (s : list ascii) : length (lower s) = length s.
Proof. apply length_map. Qed.

(** Putting the checksum's capitals back in lower case gives the digits. *)
Lemma lower_checksum_case (address hash : list ascii) :
  forallb is_hex_char address = true ->
  lower (checksum_case address hash) = lower address.
Proof.
  revert hash. induction address as [| c address IH]; intros hash H; simpl;
    [reflexivity |].
  simpl in H. apply andb_prop in H as [Hc Hs].
  rewrite (IH (tl hash) Hs). f_equal.
  destruct (Nat.ltb 7 (hex_value (hd "0"%char hash)));
    [now apply lower_upper_char | reflexivity].
Qed.

Lemma checksum_case_not_prefixed (address hash : list ascii) :
  forallb is_hex_char address = true ->
  is_0x_prefixed (checksum_case address hash) = false.
Proof.
  intros H. destruct address as [| c0 [| c1 address]]; simpl.
  - reflexivity.
  - now destruct (if Nat.ltb 7 (hex_value (hd "0"%char hash)) then upper_char c0 else c0)
      as [[] [] [] [] [] [] [] []].
  - simpl in H. apply andb_prop in H as [_ H]. apply andb_prop in H as [H1 _].
    assert (Hx : (Ascii.eqb
                    (if Nat.ltb 7 (hex_value (hd "0"%char (tl hash)))
                     then upper_char c1 else c1) "x"
                  || Ascii.eqb
                       (if Nat.ltb 7 (hex_value (hd "0"%char (tl hash)))
                        then upper_char c1 else c1) "X")%bool = false).
    { destruct (Nat.ltb 7 (hex_value (hd "0"%char (tl hash))));
        [now apply upper_char_not_x | now apply hex_char_not_x]. }
    rewrite Hx.
    now destruct (if Nat.ltb 7 (hex_value (hd "0"%char hash)) then upper_char c0 else c0)
      as [[] [] [] [] [] [] [] []].
Qed.

Lemma is_0x_prefixed_inv (s : list ascii) :
  is_0x_prefixed s = true ->
  exists x rest, s = "0"%char :: x :: rest
                 /\ (Ascii.eqb x "x" || Ascii.eqb x "X")%bool = true.
Proof.
  destruct s as [| c0 [| x rest]]; simpl.
  - discriminate.
  - now destruct c0 as [[] [] [] [] [] [] [] []].
  - intros H. exists x, rest.
    destruct c0 as [[] [] [] [] [] [] [] []]; try discriminate H. now split.
Qed.

Lemma skipn_2_cons {A} (a b : A) (l : list A) : skipn 2 (a :: b :: l) = l.
Proof. reflexivity. Qed.

Lemma is_0x_prefixed_0x (rest : list ascii) :
  is_0x_prefixed ("0"%char :: "x"%char :: rest) = true.
Proof. reflexivity. Qed.

Lemma add_0x_prefix_prefixed (s : list ascii) :
  is_0x_prefixed (add_0x_prefix s) = true.
Proof.
  unfold add_0x_prefix. destruct (is_0x_prefixed s) eqn:E; [exact E | reflexivity].
Qed.

Lemma lower_prefixed (s : list ascii) :
  is_0x_prefixed s = true ->
  lower s = "0"%char :: "x"%char :: lower (skipn 2 s).
Proof.
  intros H. destruct (is_0x_prefixed_inv s H) as (x & rest & -> & Hx).
  simpl. now rewrite (lower_char_x x Hx).
Qed.

(** A normalized address is [0x] and forty lower-case digits. *)
Lemma to_normalized_address_shape (value : string) (norm : list ascii) :
  to_normalized_address value = Ok norm ->
  exists digits,
    norm = "0"%char :: "x"%char :: digits
    /\ forallb is_hex_char digits = true
    /\ length digits = 40%nat
    /\ lower digits = digits.
Proof.
  unfold to_normalized_address.
  set (u := add_0x_prefix (lower (list_ascii_of_string value))).
  rewrite (lower_prefixed u (add_0x_prefix_prefixed _)).
  destruct (is_hex_address _) eqn:E; [| discriminate].
  intros H. injection H as <-. exists (lower (skipn 2 u)).
  unfold is_hex_address, remove_0x_prefix in E.
  rewrite is_0x_prefixed_0x, skipn_2_cons in E.
  apply andb_prop in E as [E1 E2]. apply Nat.eqb_eq in E2.
  repeat split; auto using lower_idempotent.
Qed.

Lemma not_prefixed_hex (s : list ascii) :
  forallb is_hex_char s = true ->
  is_0x_prefixed s = false.
Proof.
  destruct s as [| c0 [| c1 rest]]; simpl.
  - reflexivity.
  - now destruct c0 as [[] [] [] [] [] [] [] []].
  - intros H. apply andb_prop in H as [_ H]. apply andb_prop in H as [H1 _].
    rewrite (hex_char_not_x c1 H1).
    now destruct c0 as [[] [] [] [] [] [] [] []].
Qed.

(** Every syntactically valid hex address can be normalized. *)
Lemma to_normalized_address_valid (value : string) :
  valid_hex_address value = true ->
  exists norm, to_normalized_address value = Ok norm.
Proof.
  unfold valid_hex_address, to_normalized_address.
  set (v := list_ascii_of_string value). intros Hv.
  rewrite (lower_prefixed _ (add_0x_prefix_prefixed _)).
  assert (E : is_hex_address
                ("0"%char :: "x"%char :: lower (skipn 2 (add_0x_prefix (lower v))))
              = true).
  { unfold is_hex_address, remove_0x_prefix in *.
    rewrite is_0x_prefixed_0x, skipn_2_cons.
    assert (Hd : forallb is_hex_char (skipn 2 (add_0x_prefix (lower v))) = true
                 /\ length (skipn 2 (add_0x_prefix (lower v))) = 40%nat).
    { unfold add_0x_prefix.
      destruct (is_0x_prefixed v) eqn:Ev.
      - destruct (is_0x_prefixed_inv v Ev) as (x & rest & Hvx & Hx).
        rewrite Hvx in *. simpl skipn in Hv. simpl lower.
        rewrite (lower_char_x x Hx). simpl.
        apply andb_prop in Hv as [H1 H2]. apply Nat.eqb_eq in H2.
        split; [now apply lower_hex | now rewrite lower_length].
      - apply andb_prop in Hv as [H1 H2]. apply Nat.eqb_eq in H2.
        rewrite (not_prefixed_hex (lower v) (lower_hex v H1)). simpl.
        split; [now apply lower_hex | now rewrite lower_length]. }
    destruct Hd as [Hd1 Hd2].
    rewrite (lower_hex _ Hd1), lower_length, Hd2. reflexivity. }
  rewrite E. eauto.
Qed.

Section AnyHash.

Variable hash_hex : string -> string.

(** The checksum address of a checksum address is itself, whatever the hash. *)
Lemma to_checksum_address_with_again (value a : string) :
  to_checksum_address_with hash_hex value = Ok a ->
  to_checksum_address_with hash_hex a = Ok a.
Proof.
  unfold to_checksum_address_with.
  destruct (to_normalized_address value) as [norm | e] eqn:En; [| discriminate].
  destruct (to_normalized_address_shape value norm En)
    as (digits & -> & Hhex & Hlen & Hlow).
  unfold remove_0x_prefix. rewrite is_0x_prefixed_0x, skipn_2_cons.
  set (hash := list_ascii_of_string (hash_hex (string_of_list_ascii digits))).
  unfold add_0x_prefix at 1.
  rewrite (checksum_case_not_prefixed digits hash Hhex).
  intros H. injection H as <-.
  assert (En' : to_normalized_address
                  (string_of_list_ascii
                     ("0"%char :: "x"%char :: checksum_case digits hash))
                = Ok ("0"%char :: "x"%char :: digits)).
  { unfold to_normalized_address in *.
    rewrite list_ascii_of_string_of_list_ascii.
    assert (Hn : lower (add_0x_prefix
                          (lower ("0"%char :: "x"%char :: checksum_case digits hash)))
                 = "0"%char :: "x"%char :: digits).
    { change (lower ("0"%char :: "x"%char :: checksum_case digits hash))
        with ("0"%char :: "x"%char :: lower (checksum_case digits hash)).
      unfold add_0x_prefix. rewrite is_0x_prefixed_0x.
      change (lower ("0"%char :: "x"%char :: lower (checksum_case digits hash)))
        with ("0"%char :: "x"%char :: lower (lower (checksum_case digits hash))).
      now rewrite lower_idempotent, lower_checksum_case, Hlow. }
    rewrite Hn.
    unfold is_hex_address, remove_0x_prefix.
    rewrite is_0x_prefixed_0x, skipn_2_cons.
    rewrite Hhex, Hlen. reflexivity. }
  cbn [string_of_list_ascii] in En'. rewrite En'.
  rewrite is_0x_prefixed_0x, skipn_2_cons.
  fold hash. unfold add_0x_prefix.
  now rewrite (checksum_case_not_prefixed digits hash Hhex).
Qed.

Lemma to_checksum_address_with_valid (value : string) :
  valid_hex_address value = true ->
  exists a, to_checksum_address_with hash_hex value = Ok a.
Proof.
  intros Hv. destruct (to_normalized_address_valid value Hv) as [norm En].
  unfold to_checksum_address_with. rewrite En. eauto.
Qed.

End AnyHash.

(** C8.  [to_checksum_address] is idempotent on every syntactically valid
    hex address (forty hexadecimal digits with or without the [0x] prefix):
    it returns a string, and applied to that string it returns the same
    string again. *)
Theorem to_checksum_address_idempotent (value : string) :
  valid_hex_address value = true ->
  exists a,
    to_checksum_address value = Ok a /\ to_checksum_address a = Ok a.
Proof.
  intros Hv.
  destruct (to_checksum_address_with_valid Keccak.keccak256_hex value Hv) as [a Ha].
  exists a. split; [exact Ha |].
  exact (to_checksum_address_with_again Keccak.keccak256_hex value a Ha).
Qed.

Lemma to_checksum_address_idempotent_witness :
  valid_hex_address "0x5aaeb6053f3e94c9b9a09f33669435e7ef1beaed" = true
  /\ exists a,
       to_checksum_address "0x5aaeb6053f3e94c9b9a09f33669435e7ef1beaed" = Ok a
       /\ to_checksum_address a = Ok a.
Proof.
  split; [reflexivity |].
  apply (to_checksum_address_idempotent "0x5aaeb6053f3e94c9b9a09f33669435e7ef1beaed").
  reflexivity.
Defined.

(** The test vectors of EIP-55. *)
Example to_checksum_address_eip55_vectors :
  to_checksum_address "0x5aaeb6053f3e94c9b9a09f33669435e7ef1beaed"
    = Ok "0x5aAeb6053F3E94C9b9A09f33669435E7Ef1BeAed"
  /\ to_checksum_address "FB6916095CA1DF60BB79CE92CE3EA74C37C5D359"
     = Ok "0xfB6916095ca1df60bB79Ce92cE3Ea74c37c5d359"
  /\ to_checksum_address "0xfB6916095ca1df60bB79Ce92cE3Ea74c37c5d359"
     = Ok "0xfB6916095ca1df60bB79Ce92cE3Ea74c37c5d359".
Proof. vm_compute. repeat split. Qed.

Example keccak256_vectors :
  Keccak.keccak256_hex ""
    = "c5d2460186f7233c927e7db2dcc703c0e500b653ca82273b7bfad8045d85a470"
  /\ Keccak.keccak256_hex "abc"
     = "4e03657aea45a94fc7d47ba826c8d667c0d1e6e33a64a036ec44f58fa12d6c45".
Proof. vm_compute. split; reflexivity. Qed.

End EthFacts.

(** ** Dicts and JSON text *)

Module PyFacts.

Import Py.

Lemma dict_get_set_same (k v : string) (d : dict) :
  dict_get k (dict_set k v d) = Some v.
Proof.
  induction d as [| [k' v'] d IH]; simpl.
  - now rewrite String.eqb_refl.
  - destruct (String.eqb k k') eqn:E; simpl; rewrite E; [reflexivity | exact IH].
Qed.

Lemma dict_get_set_other (k k' v : string) (d : dict) :
  k' <> k -> dict_get k' (dict_set k v d) = dict_get k' d.
Proof.
  intros Hk. induction d as [| [k0 v0] d IH]; simpl.
  - apply String.eqb_neq in Hk. now rewrite Hk.
  - destruct (String.eqb k k0) eqn:E; simpl.
    + apply String.eqb_eq in E. subst k0.
      apply String.eqb_neq in Hk. now rewrite Hk.
    + now rewrite IH.
Qed.

(** Assigning to a key the dict has keeps the keys and their order. *)
Lemma keys_set_present (k v v0 : string) (d : dict) :
  dict_get k d = Some v0 -> keys (dict_set k v d) = keys d.
Proof.
  unfold keys. induction d as [| [k' v'] d IH]; simpl; [discriminate |].
  destruct (String.eqb k k') eqn:E; simpl; [reflexivity |].
  intros H. now rewrite (IH H).
Qed.

Lemma dict_set_not_empty (k v : string) (d : dict) : dict_set k v d <> [].
Proof.
  destruct d as [| [k' v'] d]; simpl; [discriminate |].
  destruct (String.eqb k k'); discriminate.
Qed.

Lemma keys_set_same (k v : string) (d : dict) : In k (keys (dict_set k v d)).
Proof.
  unfold keys. induction d as [| [k' v'] d IH]; simpl; [now left |].
  destruct (String.eqb k k') eqn:E; simpl.
  - apply String.eqb_eq in E. now left.
  - now right.
Qed.

Lemma keys_set_keeps (k k' v : string) (d : dict) :
  In k' (keys d) -> In k' (keys (dict_set k v d)).
Proof.
  unfold keys. induction d as [| [k0 v0] d IH]; simpl; [contradiction |].
  destruct (String.eqb k k0); simpl; intros [H | H]; auto.
Qed.

Lemma keys_update_left (k : string) (d other : dict) :
  In k (keys d) -> In k (keys (dict_update d other)).
Proof.
  unfold dict_update. revert d.
  induction other as [| [k' v'] other IH]; intros d H; simpl; [exact H |].
  apply IH. now apply keys_set_keeps.
Qed.

Lemma keys_update_right (k : string) (d other : dict) :
  In k (keys other) -> In k (keys (dict_update d other)).
Proof.
  unfold dict_update. revert d.
  induction other as [| [k' v'] other IH]; intros d H; simpl in *; [contradiction |].
  destruct H as [-> | H].
  - apply (keys_update_left k (dict_set k v' d) other). apply keys_set_same.
  - now apply IH.
Qed.

Lemma dict_get_in_keys (k : string) (d : dict) :
  In k (keys d) -> exists v, dict_get k d = Some v.
Proof.
  unfold keys. induction d as [| [k' v'] d IH]; simpl; [contradiction |].
  intros H. destruct (String.eqb k k') eqn:E; [eauto |].
  destruct H as [H | H]; [| now apply IH].
  subst k'. now rewrite String.eqb_refl in E.
Qed.

Example partition_contract_reference :
  partition ":"%char "Registry.sol:Registry" = ("Registry.sol", ":", "Registry")
  /\ partition ":"%char "Registry" = ("Registry", "", "").
Proof. split; reflexivity. Qed.

Example basename_of_contract_path :
  basename "raiden/smart_contracts/Registry.sol" = "Registry.sol"
  /\ basename "Registry.sol" = "Registry.sol".
Proof. split; reflexivity. Qed.

Example dict_update_keeps_insertion_order :
  dict_update [("a", "1"); ("b", "2")] [("b", "3"); ("c", "4")]
  = [("a", "1"); ("b", "3"); ("c", "4")].
Proof. reflexivity. Qed.

(** *** JSON text *)

Example json_dumps_indent_2 :
  lines (json_dumps [("a", "b"); ("c", "d")] (Some 2%nat))
  = ["{";
     "  " ++ json_string "a" ++ ": " ++ json_string "b" ++ ",";
     "  " ++ json_string "c" ++ ": " ++ json_string "d";
     "}"]
  /\ json_dumps [("a", "b"); ("c", "d")] None
     = "{" ++ json_string "a" ++ ": " ++ json_string "b" ++ ", "
           ++ json_string "c" ++ ": " ++ json_string "d" ++ "}"
  /\ json_escape (String newline "x") = String backslash "nx".
Proof. repeat split; reflexivity. Qed.

Lemma has_newline_app (a b : string) :
  has_newline (a ++ b) = (has_newline a || has_newline b)%bool.
Proof.
  induction a as [| c a IH]; simpl; [reflexivity |].
  now rewrite IH, orb_assoc.
Qed.

Lemma json_escape_char_one_line (c : ascii) :
  has_newline (json_escape_char c) = false.
Proof. destruct c as [[] [] [] [] [] [] [] []]; reflexivity. Qed.

Lemma json_escape_one_line (s : string) : has_newline (json_escape s) = false.
Proof.
  induction s as [| c s IH]; simpl; [reflexivity |].
  now rewrite has_newline_app, json_escape_char_one_line, IH.
Qed.

Lemma json_string_one_line (s : string) : has_newline (json_string s) = false.
Proof.
  unfold json_string. cbn [has_newline].
  rewrite has_newline_app, json_escape_one_line. reflexivity.
Qed.

Lemma json_item_one_line (kv : string * string) :
  has_newline (json_item kv) = false.
Proof.
  unfold json_item.
  now rewrite !has_newline_app, !json_string_one_line.
Qed.

Lemma concat_one_line (sep : string) (items : list string) :
  has_newline sep = false ->
  Forall (fun item => has_newline item = false) items ->
  has_newline (String.concat sep items) = false.
Proof.
  intros Hsep. induction 1 as [| item items Hitem Hitems IH]; [reflexivity |].
  destruct items as [| item' items]; [exact Hitem |].
  change (String.concat sep (item :: item' :: items))
    with (item ++ sep ++ String.concat sep (item' :: items)).
  now rewrite !has_newline_app, Hitem, Hsep, IH.
Qed.

(** Without [indent] the text is on one line. *)
Lemma json_dumps_compact_one_line (d : dict) :
  has_newline (json_dumps d None) = false.
Proof.
  destruct d as [| kv d]; [reflexivity |].
  unfold json_dumps.
  rewrite !has_newline_app, concat_one_line; [reflexivity | reflexivity |].
  apply Forall_forall. intros item Hitem.
  apply in_map_iff in Hitem as (kv' & <- & _). apply json_item_one_line.
Qed.

Lemma lines_one_line (a : string) : has_newline a = false -> lines a = [a].
Proof.
  induction a as [| c a IH]; simpl; [reflexivity |].
  destruct (Ascii.eqb c newline); simpl; [discriminate |].
  intros H. now rewrite (IH H).
Qed.

Lemma lines_app_newline (a b : string) :
  has_newline a = false -> lines (a ++ String newline b) = a :: lines b.
Proof.
  induction a as [| c a IH]; simpl.
  - reflexivity.
  - destruct (Ascii.eqb c newline); simpl; [discriminate |].
    intros H. now rewrite (IH H).
Qed.

Lemma append_assoc (a b c : string) : ((a ++ b) ++ c = a ++ (b ++ c))%string.
Proof. induction a as [| x a IH]; simpl; [reflexivity | now rewrite IH]. Qed.

Lemma keys_set (k v : string) (d : dict) :
  keys (dict_set k v d) = add_key k (keys d).
Proof.
  unfold keys. induction d as [| [k' v'] d IH]; simpl; [reflexivity |].
  destruct (String.eqb k k'); simpl; [reflexivity | now rewrite IH].
Qed.

Lemma spaces_one_line (n : nat) : has_newline (spaces n) = false.
Proof. induction n as [| n IH]; [reflexivity | exact IH]. Qed.

Lemma lines_items (n : nat) (items : list string) :
  items <> [] ->
  Forall (fun item => has_newline item = false) items ->
  lines (spaces n
           ++ String.concat ("," ++ String newline (spaces n)) items
           ++ String newline "}")
  = (item_lines n items ++ ["}"])%list.
Proof.
  intros Hne Hall. induction Hall as [| item items Hitem Hitems IH];
    [contradiction |].
  destruct items as [| item' items].
  - cbn [String.concat item_lines app].
    rewrite <- append_assoc, lines_app_newline; [reflexivity |].
    now rewrite has_newline_app, spaces_one_line, Hitem.
  - change (String.concat ("," ++ String newline (spaces n)) (item :: item' :: items))
      with (item ++ ("," ++ String newline (spaces n))
                 ++ String.concat ("," ++ String newline (spaces n)) (item' :: items)).
    change (item_lines n (item :: item' :: items))
      with ((spaces n ++ item ++ ",") :: item_lines n (item' :: items)).
    cbn [app]. rewrite <- IH by discriminate.
    rewrite <- lines_app_newline
      by (now rewrite !has_newline_app, spaces_one_line, Hitem).
    f_equal. rewrite !append_assoc. reflexivity.
Qed.

(** With [indent=n] the text is an opening brace, one line per item
    indented by [n] spaces, and a closing brace. *)
Lemma json_dumps_indent_lines (n : nat) (d : dict) :
  d <> [] ->
  lines (json_dumps d (Some n))
  = ("{" :: item_lines n (map json_item d) ++ ["}"])%list.
Proof.
  intros Hd. destruct d as [| kv d]; [contradiction |].
  unfold json_dumps.
  change ("{" ++ String newline (spaces n)
              ++ String.concat ("," ++ String newline (spaces n))
                   (map json_item (kv :: d))
              ++ String newline "}")
    with ("{" ++ String newline
                   (spaces n
                      ++ String.concat ("," ++ String newline (spaces n))
                           (map json_item (kv :: d))
                      ++ String newline "}")).
  rewrite lines_app_newline by reflexivity.
  rewrite lines_items; [reflexivity | discriminate |].
  apply Forall_forall. intros item Hitem.
  apply in_map_iff in Hitem as (kv' & <- & _). apply json_item_one_line.
Qed.

Lemma item_lines_indented (n : nat) (d : dict) :
  Forall (indented_by n) (item_lines n (map json_item d)).
Proof.
  induction d as [| kv d IH]; [constructor |].
  destruct d as [| kv' d].
  - constructor; [| constructor].
    unfold indented_by, json_item, json_string. cbn [append item_lines map].
    eexists. reflexivity.
  - change (item_lines n (map json_item (kv :: kv' :: d)))
      with ((spaces n ++ json_item kv ++ ",")
              :: item_lines n (map json_item (kv' :: d))).
    constructor; [| exact IH].
    unfold indented_by, json_item at 1, json_string at 1. cbn [append].
    eexists. reflexivity.
Qed.

Lemma item_lines_length (n : nat) (items : list string) :
  length (item_lines n items) = length items.
Proof.
  induction items as [| item items IH]; [reflexivity |].
  destruct items as [| item' items]; [reflexivity |].
  change (item_lines n (item :: item' :: items))
    with ((spaces n ++ item ++ ",") :: item_lines n (item' :: items)).
  simpl length in *. now rewrite IH.
Qed.

End PyFacts.

(** ** The script *)

Module DeployFacts.

Import Py Deploy PyFacts.

Section Facts.

Context {World Compiled Client Code : Type}.
Variable env : @Env World Compiled Client Code.

Lemma bind_ok {A B} (m : @M World Compiled Client A) (k : A -> M B) s b s2 evs :
  bind m k s = (Ok b, s2, evs) ->
  exists a s1 evs1 evs2,
    m s = (Ok a, s1, evs1) /\ k a s1 = (Ok b, s2, evs2) /\ evs = (evs1 ++ evs2)%list.
Proof.
  unfold bind. destruct (m s) as [[[a | e] s1] evs1]; [| discriminate].
  destruct (k a s1) as [[r s2'] evs2] eqn:Ek. intros H. injection H as -> -> <-.
  now exists a, s1, evs1, evs2.
Qed.

Lemma bind_raise {A B} (m : @M World Compiled Client A) (k : A -> M B) s e s2 evs :
  bind m k s = (Raise e, s2, evs) ->
  m s = (Raise e, s2, evs)
  \/ exists a s1 evs1 evs2,
       m s = (Ok a, s1, evs1) /\ k a s1 = (Raise e, s2, evs2)
       /\ evs = (evs1 ++ evs2)%list.
Proof.
  unfold bind. destruct (m s) as [[[a | e'] s1] evs1]; [| intros H; injection H as -> -> ->; left; reflexivity].
  destruct (k a s1) as [[r s2'] evs2] eqn:Ek. intros H. injection H as -> -> <-.
  right. now exists a, s1, evs1, evs2.
Qed.

(** [deploy_file], case by case on what the deployment call and the
    checksum conversion for the log line do. *)
Lemma deploy_file_run contract compiled client (s : @state World Compiled Client) :
  deploy_file env contract compiled client s
  = let '(filename, _, name) := partition ":"%char contract in
    match method s client name compiled [] "" filename (world s) with
    | (Ok (proxy, written), w) =>
        match to_checksum_address env (contract_address proxy) with
        | Ok checksum =>
            (Ok (dict_set contract (contract_address proxy) written),
             set_world s w,
             [LogInfo ("Deploying " ++ name);
              DeployCall name [] "" filename;
              LogInfo ("Deployed " ++ name ++ " @ " ++ checksum)])
        | Raise e =>
            (Raise e, set_world s w,
             [LogInfo ("Deploying " ++ name); DeployCall name [] "" filename])
        end
    | (Raise e, w) =>
        (Raise e, set_world s w,
         [LogInfo ("Deploying " ++ name); DeployCall name [] "" filename])
    end.
Proof.
  unfold deploy_file.
  destruct (partition ":"%char contract) as [[filename sep] name].
  unfold deploy_solidity_contract, log_info.
  unfold bind, emit, call, lift, ret. cbn [app].
  destruct (method s client name compiled [] "" filename (world s))
    as [[[proxy written] | e] w]; [| reflexivity].
  destruct (to_checksum_address env (contract_address proxy)); reflexivity.
Qed.

Lemma deploy_calls_app (evs1 evs2 : list event) :
  deploy_calls (evs1 ++ evs2) = (deploy_calls evs1 ++ deploy_calls evs2)%list.
Proof. apply flat_map_app. Qed.

Lemma printed_app (evs1 evs2 : list event) :
  printed (evs1 ++ evs2) = (printed evs1 ++ printed evs2)%list.
Proof. apply flat_map_app. Qed.

Lemma new_clients_app (evs1 evs2 : list event) :
  new_clients (evs1 ++ evs2) = (new_clients evs1 ++ new_clients evs2)%list.
Proof. apply flat_map_app. Qed.

Lemma printed_start host port privatekey gas_price (evs : list event) :
  printed (ConfigureLogging :: NewClient host port privatekey gas_price :: evs)
  = printed evs.
Proof. reflexivity. Qed.

Lemma new_clients_start host port privatekey gas_price (evs : list event) :
  new_clients (ConfigureLogging :: NewClient host port privatekey gas_price :: evs)
  = (host, port, privatekey, gas_price) :: new_clients evs.
Proof. reflexivity. Qed.

Lemma deployment_events_print_nothing (evs : list event) :
  Forall deployment_event evs -> printed evs = [].
Proof.
  induction 1 as [| ev evs Hev _ IH]; [reflexivity |].
  destruct ev; simpl in *; try contradiction; exact IH.
Qed.

Lemma deployment_events_no_client (evs : list event) :
  Forall deployment_event evs -> new_clients evs = [].
Proof.
  induction 1 as [| ev evs Hev _ IH]; [reflexivity |].
  destruct ev; simpl in *; try contradiction; exact IH.
Qed.

(** One turn of the loop: one deployment call, with an empty [libraries];
    the class's method is not touched; what the call left in [libraries]
    and the contract's own address go into the accumulator. *)
Lemma step_run compiled client contract acc (s : @state World Compiled Client) :
  let '(r, s', evs) := deploy_all_step env compiled client contract acc s in
  deploy_calls evs = [expected_call contract]
  /\ Forall deployment_event evs
  /\ method s' = method s
  /\ match r with
     | Ok deployed =>
         let '(name, _, _, filename) := expected_call contract in
         exists proxy written w,
           method s client name compiled [] "" filename (world s)
             = (Ok (proxy, written), w)
           /\ deployed
              = dict_update acc (dict_set contract (contract_address proxy) written)
     | Raise _ => True
     end.
Proof.
  unfold deploy_all_step, bind, ret. rewrite deploy_file_run. unfold expected_call.
  destruct (partition ":"%char contract) as [[filename sep] name].
  destruct (method s client name compiled [] "" filename (world s))
    as [[[proxy written] | e] w].
  - destruct (to_checksum_address env (contract_address proxy)); cbn.
    + repeat split; [repeat constructor | now exists proxy, written, w].
    + repeat split; repeat constructor.
  - cbn. repeat split; repeat constructor.
Qed.

Lemma loop_run compiled client (l : list string) :
  forall acc (s : @state World Compiled Client),
    let '(r, s', evs) := for_each l (deploy_all_step env compiled client) acc s in
    Forall deployment_event evs
    /\ method s' = method s
    /\ match r with
       | Ok deployed =>
           deploy_calls evs = map expected_call l
           /\ (forall k, In k (keys acc) \/ In k l -> In k (keys deployed))
           /\ (leaves_libraries (method s) ->
               keys deployed = fold_left (fun ks c => add_key c ks) l (keys acc))
       | Raise _ =>
           exists n, (n < length l)%nat
                     /\ deploy_calls evs = map expected_call (firstn (S n) l)
       end.
Proof.
  induction l as [| contract l IH]; intros acc s.
  - cbn. repeat split; auto. intros k [H | []]. exact H.
  - cbn [for_each]. unfold bind at 1.
    pose proof (step_run compiled client contract acc s) as Hstep.
    destruct (deploy_all_step env compiled client contract acc s) as [[[acc' | e] s1] evs1].
    + destruct Hstep as (Hcalls1 & Hevs1 & Hm1 & Hacc').
      specialize (IH acc' s1).
      destruct (for_each l (deploy_all_step env compiled client) acc' s1) as [[r s2] evs2].
      destruct IH as (Hevs2 & Hm2 & Hr).
      split; [now apply Forall_app |]. split; [congruence |].
      unfold expected_call in Hacc'.
      destruct (partition ":"%char contract) as [[filename sep] name] eqn:Ep.
      destruct Hacc' as (proxy & written & w & Hcall & ->).
      destruct r as [deployed | e].
      * destruct Hr as (Hcalls2 & Hkeys & Hleaves). split; [| split].
        -- rewrite deploy_calls_app, Hcalls1, Hcalls2. reflexivity.
        -- intros k [Hk | [<- | Hk]]; apply Hkeys; auto.
           ++ left. now apply keys_update_left.
           ++ left. apply keys_update_right, keys_set_same.
        -- intros Hl. rewrite Hleaves by (now rewrite Hm1).
           rewrite (Hl _ _ _ _ _ _ _ _ _ _ Hcall). cbn.
           now rewrite keys_set.
      * destruct Hr as (n & Hn & Hcalls2). exists (S n). split; [cbn; lia |].
        rewrite deploy_calls_app, Hcalls1, Hcalls2. reflexivity.
    + destruct Hstep as (Hcalls1 & Hevs1 & Hm1 & _).
      repeat split; auto. exists 0%nat. split; [cbn; lia |]. exact Hcalls1.
Qed.

Lemma deploy_all_unfold client (s : @state World Compiled Client) :
  deploy_all env client s
  = bind (call (compile_files_cwd env (map (get_contract_path env) RAIDEN_CONTRACT_FILES)))
         (fun compiled => for_each CONTRACTS_TO_DEPLOY (deploy_all_step env compiled client) [])
         s.
Proof. reflexivity. Qed.

Lemma deploy_all_two_steps client (s : @state World Compiled Client) :
  deploy_all env client s
  = match compile_files_cwd env (map (get_contract_path env) RAIDEN_CONTRACT_FILES)
            (world s) with
    | (Raise e, w0) => (Raise e, set_world s w0, [])
    | (Ok compiled, w0) =>
        match deploy_file env "Registry.sol:Registry" compiled client (set_world s w0) with
        | (Raise e, s1, evs1) => (Raise e, s1, evs1)
        | (Ok libraries1, s1, evs1) =>
            match deploy_file env "EndpointRegistry.sol:EndpointRegistry" compiled
                    client s1 with
            | (Raise e, s2, evs2) => (Raise e, s2, (evs1 ++ evs2)%list)
            | (Ok libraries2, s2, evs2) =>
                (Ok (dict_update (dict_update [] libraries1) libraries2), s2,
                 (evs1 ++ evs2)%list)
            end
        end
    end.
Proof.
  rewrite deploy_all_unfold. unfold bind at 1. unfold call.
  destruct (compile_files_cwd env _ (world s)) as [[compiled | e] w0];
    [| reflexivity].
  unfold CONTRACTS_TO_DEPLOY. cbn [for_each app].
  unfold bind at 1. unfold deploy_all_step at 1. unfold bind at 1.
  destruct (deploy_file env "Registry.sol:Registry" compiled client (set_world s w0))
    as [[[libraries1 | e] s1] evs1]; [| reflexivity].
  unfold ret at 1. rewrite app_nil_r.
  unfold bind at 1. unfold deploy_all_step at 1. unfold bind at 1.
  destruct (deploy_file env "EndpointRegistry.sol:EndpointRegistry" compiled client s1)
    as [[[libraries2 | e] s2] evs2]; [| reflexivity].
  unfold ret. now rewrite !app_nil_r.
Qed.

(** What a run of [deploy_all] does, whatever the collaborators do. *)
Lemma deploy_all_run client (s : @state World Compiled Client) :
  let '(r, s', evs) := deploy_all env client s in
  Forall deployment_event evs
  /\ method s' = method s
  /\ match r with
     | Ok deployed =>
         deploy_calls evs = map expected_call CONTRACTS_TO_DEPLOY
         /\ (forall k, In k CONTRACTS_TO_DEPLOY -> In k (keys deployed))
         /\ (leaves_libraries (method s) -> keys deployed = CONTRACTS_TO_DEPLOY)
     | Raise _ =>
         exists n, deploy_calls evs = map expected_call (firstn n CONTRACTS_TO_DEPLOY)
     end.
Proof.
  rewrite deploy_all_unfold. unfold bind, call.
  destruct (compile_files_cwd env _ (world s)) as [[compiled | e] w].
  - pose proof (loop_run compiled client CONTRACTS_TO_DEPLOY [] (set_world s w)) as H.
    destruct (for_each CONTRACTS_TO_DEPLOY (deploy_all_step env compiled client) [] (set_world s w))
      as [[r s'] evs].
    destruct H as (Hevs & Hm & Hr). cbn [app].
    split; [exact Hevs |]. split; [exact Hm |].
    destruct r as [deployed | e].
    + destruct Hr as (Hcalls & Hkeys & Hleaves). repeat split; auto.
    + destruct Hr as (n & _ & Hcalls). now exists (S n).
  - repeat split; auto. now exists 0%nat.
Qed.

Lemma expected_calls_empty_libraries (l : list string) :
  Forall (fun c => call_libraries c = []) (map expected_call l).
Proof.
  induction l as [| contract l IH]; constructor; [| exact IH].
  unfold expected_call.
  now destruct (partition ":"%char contract) as [[filename sep] name].
Qed.

(** When [deploy_all] returns, both top-level contracts are in its result:
    the two lookups of [main] find their keys. *)
Lemma deploy_all_records_both_contracts client (s s' : @state World Compiled Client)
    deployed evs :
  deploy_all env client s = (Ok deployed, s', evs) ->
  (exists raw, dict_get "EndpointRegistry.sol:EndpointRegistry" deployed = Some raw)
  /\ (exists raw, dict_get "Registry.sol:Registry" deployed = Some raw).
Proof.
  intros E. pose proof (deploy_all_run client s) as H. rewrite E in H.
  destruct H as (_ & _ & _ & Hkeys & _).
  split; apply dict_get_in_keys, Hkeys; cbn; auto.
Qed.

(** *** The patch step *)

Lemma rebind_run ast_ (s : @state World Compiled Client) :
  rebind env ast_ s
  = match py_compile env ast_ with
    | Raise e => (Raise e, s, [])
    | Ok code =>
        match py_exec env code with
        | Raise e => (Raise e, s, [])
        | Ok ctx =>
            match ctx_getitem "deploy_solidity_contract" ctx with
            | Raise e => (Raise e, s, [])
            | Ok f =>
                (Ok tt,
                 {| world := world s; method_source := method_source s; method := f |},
                 [])
            end
        end
    end.
Proof.
  unfold rebind, bind, lift, set_method.
  destruct (py_compile env ast_) as [code | e]; [| reflexivity].
  destruct (py_exec env code) as [ctx | e]; [| reflexivity].
  destruct (ctx_getitem "deploy_solidity_contract" ctx); reflexivity.
Qed.

Lemma patch_unfold (s : @state World Compiled Client) :
  patch_deploy_solidity_contract env s
  = rebind env (Ast.visit (method_source s)) s.
Proof.
  unfold patch_deploy_solidity_contract, bind, parse_method_source.
  now destruct (rebind env (Ast.visit (method_source s)) s) as [[r s'] evs].
Qed.

(** The patch step emits nothing and leaves the world as it is. *)
Lemma patch_quiet (s : @state World Compiled Client) :
  let '(_, s', evs) := patch_deploy_solidity_contract env s in
  evs = [] /\ world s' = world s.
Proof.
  rewrite patch_unfold, rebind_run.
  destruct (py_compile env _) as [code | e]; [| now split].
  destruct (py_exec env code) as [ctx | e]; [| now split].
  destruct (ctx_getitem "deploy_solidity_contract" ctx); now split.
Qed.

(** *** [main] *)

Lemma main_output_run pretty deployed (s : @state World Compiled Client) :
  main_output env pretty deployed s
  = match dict_get "EndpointRegistry.sol:EndpointRegistry" deployed with
    | None => (Raise (KeyError "EndpointRegistry.sol:EndpointRegistry"), s, [])
    | Some raw_e =>
        match to_checksum_address env raw_e with
        | Raise e => (Raise e, s, [])
        | Ok a_e =>
            let deployed :=
              dict_set "EndpointRegistry.sol:EndpointRegistry" a_e deployed in
            match dict_get "Registry.sol:Registry" deployed with
            | None => (Raise (KeyError "Registry.sol:Registry"), s, [])
            | Some raw_r =>
                match to_checksum_address env raw_r with
                | Raise e => (Raise e, s, [])
                | Ok a_r =>
                    (Ok tt, s,
                     [Print (json_dumps (dict_set "Registry.sol:Registry" a_r deployed)
                                        (if pretty then Some 2%nat else None))])
                end
            end
        end
    end.
Proof.
  unfold main_output, bind, lift, print, emit, dict_getitem.
  destruct (dict_get "EndpointRegistry.sol:EndpointRegistry" deployed) as [raw_e |];
    [| reflexivity].
  destruct (to_checksum_address env raw_e) as [a_e | e]; [| reflexivity].
  cbv zeta.
  destruct (dict_get "Registry.sol:Registry"
              (dict_set "EndpointRegistry.sol:EndpointRegistry" a_e deployed))
    as [raw_r |]; [| reflexivity].
  destruct (to_checksum_address env raw_r); reflexivity.
Qed.

(** [main], stage by stage. *)
Lemma main_run opts (s : @state World Compiled Client) :
  main env opts s
  = match prompt_account env (keystore_path opts) (world s) with
    | (Raise e, w) => (Raise e, set_world s w, [ConfigureLogging])
    | (Ok (_, privatekey), w) =>
        match patch_deploy_solidity_contract env (set_world s w) with
        | (Raise e, s2, _) => (Raise e, s2, [ConfigureLogging])
        | (Ok _, s2, _) =>
            let created :=
              NewClient "127.0.0.1" (port opts) privatekey
                        (gas_price opts * 1000000000) in
            match JSONRPCClient env "127.0.0.1" (port opts) privatekey
                    (gas_price opts * 1000000000) (world s2) with
            | (Raise e, w3) => (Raise e, set_world s2 w3, [ConfigureLogging; created])
            | (Ok client, w3) =>
                match deploy_all env client (set_world s2 w3) with
                | (Raise e, s4, evs) =>
                    (Raise e, s4, ConfigureLogging :: created :: evs)
                | (Ok deployed, s4, evs) =>
                    let '(r, s5, evs') := main_output env (pretty opts) deployed s4 in
                    (r, s5, (ConfigureLogging :: created :: evs ++ evs')%list)
                end
            end
        end
    end.
Proof.
  unfold main, get_privatekey.
  unfold bind at 1 2 3. unfold emit at 1. unfold call at 1.
  destruct (prompt_account env (keystore_path opts) (world s))
    as [[[address_hex privatekey] | e] w]; [| reflexivity].
  unfold ret at 1. cbn [app].
  unfold bind at 1.
  pose proof (patch_quiet (set_world s w)) as Hq.
  destruct (patch_deploy_solidity_contract env (set_world s w)) as [[[[] | e] s2] evs2];
    destruct Hq as [-> _]; [| reflexivity].
  cbv zeta. unfold bind at 1 2. unfold emit at 1. unfold call at 1.
  destruct (JSONRPCClient env "127.0.0.1" (port opts) privatekey
              (gas_price opts * 1000000000) (world s2)) as [[client | e] w3];
    [| reflexivity].
  cbn [app]. unfold bind at 1.
  destruct (deploy_all env client (set_world s2 w3)) as [[[deployed | e] s4] evs];
    [| reflexivity].
  destruct (main_output env (pretty opts) deployed s4) as [[r s5] evs'].
  reflexivity.
Qed.

Lemma main_output_ok pretty deployed (s s' : @state World Compiled Client) evs :
  main_output env pretty deployed s = (Ok tt, s', evs) ->
  exists raw_e a_e raw_r a_r,
    dict_get "EndpointRegistry.sol:EndpointRegistry" deployed = Some raw_e
    /\ to_checksum_address env raw_e = Ok a_e
    /\ dict_get "Registry.sol:Registry" deployed = Some raw_r
    /\ to_checksum_address env raw_r = Ok a_r
    /\ s' = s
    /\ evs = [Print (json_dumps
                       (dict_set "Registry.sol:Registry" a_r
                          (dict_set "EndpointRegistry.sol:EndpointRegistry" a_e deployed))
                       (if pretty then Some 2%nat else None))].
Proof.
  rewrite main_output_run.
  destruct (dict_get "EndpointRegistry.sol:EndpointRegistry" deployed) as [raw_e |];
    [| discriminate].
  destruct (to_checksum_address env raw_e) as [a_e | e] eqn:Ee; [| discriminate].
  cbv zeta. rewrite dict_get_set_other by discriminate.
  destruct (dict_get "Registry.sol:Registry" deployed) as [raw_r |]; [| discriminate].
  destruct (to_checksum_address env raw_r) as [a_r | e] eqn:Er; [| discriminate].
  intros H. injection H as <- <-. now exists raw_e, a_e, raw_r, a_r.
Qed.

Lemma main_output_raise pretty deployed (s s' : @state World Compiled Client) e evs :
  main_output env pretty deployed s = (Raise e, s', evs) -> s' = s /\ evs = [].
Proof.
  rewrite main_output_run.
  destruct (dict_get "EndpointRegistry.sol:EndpointRegistry" deployed) as [raw_e |];
    [| intros H; injection H as _ <- <-; now split].
  destruct (to_checksum_address env raw_e) as [a_e | e'];
    [| intros H; injection H as _ <- <-; now split].
  cbv zeta.
  destruct (dict_get "Registry.sol:Registry" _) as [raw_r |];
    [| intros H; injection H as _ <- <-; now split].
  destruct (to_checksum_address env raw_r) as [a_r | e'];
    [discriminate | intros H; injection H as _ <- <-; now split].
Qed.

(** The dict [main] prints: the two converted values, everything else as
    [deploy_all] returned it. *)
Lemma converted_dict (deployed : dict) (raw_e raw_r a_e a_r : string) :
  dict_get "EndpointRegistry.sol:EndpointRegistry" deployed = Some raw_e ->
  dict_get "Registry.sol:Registry" deployed = Some raw_r ->
  let out := dict_set "Registry.sol:Registry" a_r
               (dict_set "EndpointRegistry.sol:EndpointRegistry" a_e deployed) in
  keys out = keys deployed
  /\ dict_get "EndpointRegistry.sol:EndpointRegistry" out = Some a_e
  /\ dict_get "Registry.sol:Registry" out = Some a_r
  /\ forall k,
       k <> "EndpointRegistry.sol:EndpointRegistry" ->
       k <> "Registry.sol:Registry" ->
       dict_get k out = dict_get k deployed.
Proof.
  intros He Hr out. subst out. repeat split.
  - rewrite (keys_set_present _ _ raw_r), (keys_set_present _ _ raw_e); auto.
    now rewrite dict_get_set_other by discriminate.
  - rewrite dict_get_set_other by discriminate. apply dict_get_set_same.
  - apply dict_get_set_same.
  - intros k Hke Hkr. now rewrite !dict_get_set_other by assumption.
Qed.

(** A run of [main] that returns has made one client, run [deploy_all]
    and printed one text; a run that raises has printed nothing. *)
Lemma main_cases opts (s : @state World Compiled Client) :
  let '(r, s', evs) := main env opts s in
  match r with
  | Ok _ =>
      exists privatekey client s0 deployed evs_d text,
        deploy_all env client s0 = (Ok deployed, s', evs_d)
        /\ main_output env (pretty opts) deployed s' = (Ok tt, s', [Print text])
        /\ evs = (ConfigureLogging
                    :: NewClient "127.0.0.1" (port opts) privatekey
                         (gas_price opts * 1000000000)
                    :: evs_d ++ [Print text])%list
  | Raise _ =>
      printed evs = []
      /\ (new_clients evs = []
          \/ exists privatekey,
               new_clients evs
               = [("127.0.0.1", port opts, privatekey, gas_price opts * 1000000000)])
  end.
Proof.
  rewrite main_run.
  destruct (prompt_account env (keystore_path opts) (world s))
    as [[[address_hex privatekey] | e] w]; [| split; [reflexivity | now left]].
  destruct (patch_deploy_solidity_contract env (set_world s w)) as [[[[] | e] s2] evs2];
    [| split; [reflexivity | now left]].
  cbv zeta.
  destruct (JSONRPCClient env "127.0.0.1" (port opts) privatekey
              (gas_price opts * 1000000000) (world s2)) as [[client | e] w3];
    [| split; [reflexivity | right; now exists privatekey]].
  pose proof (deploy_all_run client (set_world s2 w3)) as Hd.
  destruct (deploy_all env client (set_world s2 w3)) as [[[deployed | e] s4] evs] eqn:Ed.
  - destruct Hd as (Hevs & _).
    destruct (main_output env (pretty opts) deployed s4) as [[[[] | e] s5] evs'] eqn:Eo.
    + destruct (main_output_ok _ _ _ _ _ Eo) as (raw_e & a_e & raw_r & a_r & _ & _ & _ & _ & -> & ->).
      eexists privatekey, client, _, deployed, evs, _. repeat split; eassumption.
    + destruct (main_output_raise _ _ _ _ _ _ Eo) as [-> ->].
      rewrite app_nil_r, printed_start, new_clients_start.
      rewrite (deployment_events_print_nothing _ Hevs),
        (deployment_events_no_client _ Hevs).
      split; [reflexivity | right; now exists privatekey].
  - destruct Hd as (Hevs & _). rewrite printed_start, new_clients_start.
    rewrite (deployment_events_print_nothing _ Hevs),
      (deployment_events_no_client _ Hevs).
    split; [reflexivity | right; now exists privatekey].
Qed.

Lemma main_output_no_client pretty deployed (s : @state World Compiled Client) :
  new_clients (snd (main_output env pretty deployed s)) = [].
Proof.
  destruct (main_output env pretty deployed s) as [[[[] | e] s'] evs] eqn:E.
  - destruct (main_output_ok _ _ _ _ _ E)
      as (raw_e & a_e & raw_r & a_r & _ & _ & _ & _ & _ & ->). reflexivity.
  - now destruct (main_output_raise _ _ _ _ _ _ E) as [_ ->].
Qed.

(** A run of [main] in which every collaborator answers: what it returns,
    the state it leaves and everything it emits. *)
Lemma main_success_run opts (s : @state World Compiled Client)
    address_hex privatekey w s2 evs2 client w3 compiled w0
    proxy1 written1 w1 checksum1 proxy2 written2 w2 checksum2
    deployed raw_e a_e raw_r a_r :
  prompt_account env (keystore_path opts) (world s)
  = (Ok (address_hex, privatekey), w) ->
  patch_deploy_solidity_contract env (set_world s w) = (Ok tt, s2, evs2) ->
  JSONRPCClient env "127.0.0.1" (port opts) privatekey
    (gas_price opts * 1000000000) w = (Ok client, w3) ->
  compile_files_cwd env (map (get_contract_path env) RAIDEN_CONTRACT_FILES) w3
  = (Ok compiled, w0) ->
  method s2 client "Registry" compiled [] "" "Registry.sol" w0
  = (Ok (proxy1, written1), w1) ->
  to_checksum_address env (contract_address proxy1) = Ok checksum1 ->
  method s2 client "EndpointRegistry" compiled [] "" "EndpointRegistry.sol" w1
  = (Ok (proxy2, written2), w2) ->
  to_checksum_address env (contract_address proxy2) = Ok checksum2 ->
  deployed
  = dict_update
      (dict_update [] (dict_set "Registry.sol:Registry"
                         (contract_address proxy1) written1))
      (dict_set "EndpointRegistry.sol:EndpointRegistry"
         (contract_address proxy2) written2) ->
  dict_get "EndpointRegistry.sol:EndpointRegistry" deployed = Some raw_e ->
  to_checksum_address env raw_e = Ok a_e ->
  dict_get "Registry.sol:Registry" deployed = Some raw_r ->
  to_checksum_address env raw_r = Ok a_r ->
  main env opts s
  = (Ok tt, set_world s2 w2,
     [ConfigureLogging;
      NewClient "127.0.0.1" (port opts) privatekey (gas_price opts * 1000000000);
      LogInfo "Deploying Registry";
      DeployCall "Registry" [] "" "Registry.sol";
      LogInfo ("Deployed Registry @ " ++ checksum1);
      LogInfo "Deploying EndpointRegistry";
      DeployCall "EndpointRegistry" [] "" "EndpointRegistry.sol";
      LogInfo ("Deployed EndpointRegistry @ " ++ checksum2);
      Print (json_dumps
               (dict_set "Registry.sol:Registry" a_r
                  (dict_set "EndpointRegistry.sol:EndpointRegistry" a_e deployed))
               (if pretty opts then Some 2%nat else None))]).
Proof.
  intros Hprompt Hpatch Hclient Hcompile Hcall1 Hsum1 Hcall2 Hsum2 Hdeployed
         Hget_e Hsum_e Hget_r Hsum_r.
  pose proof (patch_quiet (set_world s w)) as Hq. rewrite Hpatch in Hq.
  destruct Hq as [_ Hw]. cbn [set_world world] in Hw.
  rewrite main_run, Hprompt, Hpatch. cbv zeta. rewrite Hw, Hclient.
  rewrite deploy_all_two_steps. cbn [set_world world method_source method].
  rewrite Hcompile, deploy_file_run.
  cbn [partition Ascii.eqb Bool.eqb]. cbn [set_world world method].
  rewrite Hcall1, Hsum1, deploy_file_run.
  cbn [partition Ascii.eqb Bool.eqb]. cbn [set_world world method].
  rewrite Hcall2, Hsum2, <- Hdeployed.
  rewrite main_output_run, Hget_e, Hsum_e. cbv zeta.
  rewrite dict_get_set_other by discriminate. rewrite Hget_r, Hsum_r.
  reflexivity.
Qed.

End Facts.

End DeployFacts.

(** * The claims of the specification *)

Module Claims.

Import Py Deploy PyFacts DeployFacts.

Section Script.

Context {World Compiled Client Code : Type}.
Variable env : @Env World Compiled Client Code.

(** C1.  [deploy_all] invokes the client's [deploy_solidity_contract]
    exactly once per entry of [CONTRACTS_TO_DEPLOY], in the order of the
    list.  When [deploy_all] returns, the deployment calls it has made are,
    in order, the calls for the entries of the list, and the Contract
    References they are for are the list itself; when it raises, the calls
    made are those for the first entries of the list, up to the one at which
    it failed.  And the calls are made: once the contracts are compiled, the
    method is invoked for [Registry] in the world the compiler left, then,
    if that call returns and its address can be logged, for
    [EndpointRegistry] in the world the first call left; [deploy_all] returns
    exactly when both calls return and both addresses can be logged, with
    what the two calls gave, and otherwise raises the error of the step that
    failed, in the world that step left. *)
Theorem deploy_all_calls_each_contract_once_in_order
    client (s : @state World Compiled Client) :
  (let '(r, _, evs) := deploy_all env client s in
   match r with
   | Ok _ =>
       deploy_calls evs = map expected_call CONTRACTS_TO_DEPLOY
       /\ map call_reference (deploy_calls evs) = CONTRACTS_TO_DEPLOY
   | Raise _ =>
       exists n, deploy_calls evs = map expected_call (firstn n CONTRACTS_TO_DEPLOY)
   end)
  /\ match compile_files_cwd env (map (get_contract_path env) RAIDEN_CONTRACT_FILES)
            (world s) with
     | (Raise e, w0) => deploy_all env client s = (Raise e, set_world s w0, [])
     | (Ok compiled, w0) =>
         match method s client "Registry" compiled [] "" "Registry.sol" w0 with
         | (Raise e, w1) =>
             exists evs,
               deploy_all env client s = (Raise e, set_world s w1, evs)
               /\ deploy_calls evs = [("Registry", [], "", "Registry.sol")]
         | (Ok (proxy1, written1), w1) =>
             match to_checksum_address env (contract_address proxy1) with
             | Raise e =>
                 exists evs,
                   deploy_all env client s = (Raise e, set_world s w1, evs)
                   /\ deploy_calls evs = [("Registry", [], "", "Registry.sol")]
             | Ok _ =>
                 match method s client "EndpointRegistry" compiled [] ""
                         "EndpointRegistry.sol" w1 with
                 | (Raise e, w2) =>
                     exists evs,
                       deploy_all env client s = (Raise e, set_world s w2, evs)
                       /\ deploy_calls evs
                          = [("Registry", [], "", "Registry.sol");
                             ("EndpointRegistry", [], "", "EndpointRegistry.sol")]
                 | (Ok (proxy2, written2), w2) =>
                     match to_checksum_address env (contract_address proxy2) with
                     | Raise e =>
                         exists evs,
                           deploy_all env client s = (Raise e, set_world s w2, evs)
                           /\ deploy_calls evs
                              = [("Registry", [], "", "Registry.sol");
                                 ("EndpointRegistry", [], "", "EndpointRegistry.sol")]
                     | Ok _ =>
                         exists evs,
                           deploy_all env client s
                           = (Ok (dict_update
                                    (dict_update []
                                       (dict_set "Registry.sol:Registry"
                                          (contract_address proxy1) written1))
                                    (dict_set "EndpointRegistry.sol:EndpointRegistry"
                                       (contract_address proxy2) written2)),
                              set_world s w2, evs)
                           /\ deploy_calls evs
                              = [("Registry", [], "", "Registry.sol");
                                 ("EndpointRegistry", [], "", "EndpointRegistry.sol")]
                     end
                 end
             end
         end
     end.
Proof.
  split.
  - pose proof (deploy_all_run env client s) as H.
    destruct (deploy_all env client s) as [[[deployed | e] s'] evs].
    + destruct H as (_ & _ & Hcalls & _). split; [exact Hcalls |].
      rewrite Hcalls. reflexivity.
    + destruct H as (_ & _ & n & Hcalls). now exists n.
  - rewrite deploy_all_two_steps.
    destruct (compile_files_cwd env _ (world s)) as [[compiled | e] w0];
      [| reflexivity].
    rewrite deploy_file_run.
    cbn [partition Ascii.eqb Bool.eqb]. cbn [set_world world method].
    destruct (method s client "Registry" compiled [] "" "Registry.sol" w0)
      as [[[proxy1 written1] | e] w1]; [| eexists; split; reflexivity].
    destruct (to_checksum_address env (contract_address proxy1)) as [checksum1 | e];
      [| eexists; split; reflexivity].
    rewrite deploy_file_run.
    cbn [partition Ascii.eqb Bool.eqb]. cbn [set_world world method].
    destruct (method s client "EndpointRegistry" compiled [] ""
                "EndpointRegistry.sol" w1)
      as [[[proxy2 written2] | e] w2]; [| eexists; split; reflexivity].
    destruct (to_checksum_address env (contract_address proxy2));
      eexists; split; reflexivity.
Qed.

(** C2, as the code has it.  The map [deploy_file] returns is the map the
    deployment operation left behind in the (initially empty) [libraries]
    dict it was passed, with the entry for the input Contract Reference set
    to the deployed contract's address.  So the map always has that entry,
    keyed by the exact input string, and it is the only entry when the
    deployment operation left the dict as it was passed.  [deploy_file]
    returns exactly when the deployment call returns and the address can be
    formatted for the log line; otherwise the error propagates. *)
Theorem deploy_file_returns_libraries_with_own_entry
    contract compiled client (s : @state World Compiled Client) :
  let '(filename, _, name) := partition ":"%char contract in
  match method s client name compiled [] "" filename (world s) with
  | (Ok (proxy, written), w) =>
      match to_checksum_address env (contract_address proxy) with
      | Ok _ =>
          let libraries := dict_set contract (contract_address proxy) written in
          (exists evs,
              deploy_file env contract compiled client s
              = (Ok libraries, set_world s w, evs))
          /\ dict_get contract libraries = Some (contract_address proxy)
          /\ (leaves_libraries (method s) ->
              libraries = [(contract, contract_address proxy)])
      | Raise e =>
          exists evs,
            deploy_file env contract compiled client s = (Raise e, set_world s w, evs)
      end
  | (Raise e, w) =>
      exists evs,
        deploy_file env contract compiled client s = (Raise e, set_world s w, evs)
  end.
Proof.
  rewrite deploy_file_run.
  destruct (partition ":"%char contract) as [[filename sep] name].
  destruct (method s client name compiled [] "" filename (world s))
    as [[[proxy written] | e] w] eqn:Ecall; [| eauto].
  destruct (to_checksum_address env (contract_address proxy)); [| eauto].
  cbv zeta. split; [eauto |]. split; [apply dict_get_set_same |].
  intros Hleaves. now rewrite (Hleaves _ _ _ _ _ _ _ _ _ _ Ecall).
Qed.

(** C3, as the code has it.  Every deployment call [deploy_all] makes is
    given an empty [libraries] map: [deploy_file] starts a fresh dict for
    each call, and the accumulator of [deploy_all] is never passed to the
    deployment operation.  The accumulator starts empty and takes over the
    entries of each map [deploy_file] returns: when [deploy_all] returns it
    holds an entry for every entry of [CONTRACTS_TO_DEPLOY], and exactly
    those, one per deployment and in order, when the deployment operation
    leaves the dict it is passed as it was. *)
Theorem deploy_all_passes_empty_libraries_and_accumulates
    client (s : @state World Compiled Client) :
  let '(r, _, evs) := deploy_all env client s in
  Forall (fun c => call_libraries c = []) (deploy_calls evs)
  /\ match r with
     | Ok deployed =>
         (forall k, In k CONTRACTS_TO_DEPLOY -> In k (keys deployed))
         /\ (leaves_libraries (method s) -> keys deployed = CONTRACTS_TO_DEPLOY)
     | Raise _ => True
     end.
Proof.
  pose proof (deploy_all_run env client s) as H.
  destruct (deploy_all env client s) as [[[deployed | e] s'] evs].
  - destruct H as (_ & _ & Hcalls & Hkeys & Hleaves).
    rewrite Hcalls. split; [apply expected_calls_empty_libraries | now split].
  - destruct H as (_ & _ & n & Hcalls).
    rewrite Hcalls. split; [apply expected_calls_empty_libraries | exact I].
Qed.

(** C4, as the code has it.  When the source of
    [JSONRPCClient.deploy_solidity_contract] has no assignment with the
    single target [libraries] at column 4, the transformer returns the tree
    as it is and [patch_deploy_solidity_contract] goes on to compile and
    rebind the unchanged method: it raises only if compiling or executing
    that tree raises, and completes whenever they define the function. *)
Theorem patch_without_pattern_rebinds_unchanged_source
    (s : @state World Compiled Client) :
  Ast.has_pattern (method_source s) = false ->
  patch_deploy_solidity_contract env s = rebind env (Some (method_source s)) s
  /\ forall code ctx f,
       py_compile env (Some (method_source s)) = Ok code ->
       py_exec env code = Ok ctx ->
       ctx_getitem "deploy_solidity_contract" ctx = Ok f ->
       patch_deploy_solidity_contract env s
       = (Ok tt,
          {| world := world s; method_source := method_source s; method := f |},
          []).
Proof.
  intros Hno. rewrite patch_unfold.
  rewrite (AstFacts.visit_without_pattern _ Hno). split; [reflexivity |].
  intros code ctx f Hcompile Hexec Hget.
  now rewrite rebind_run, Hcompile, Hexec, Hget.
Qed.


(** C6.  The gas price [main] passes to the RPC client is the [--gas-price]
    option times 10^9: every [JSONRPCClient] a run constructs is given that
    value, a run constructs at most one and a run that returns exactly one.
    With the option's default, 4, the value is 4,000,000,000.  And the
    client is constructed: once the account prompt and the patch step have
    gone through, [main] calls [JSONRPCClient] with host 127.0.0.1, the
    port, the prompted key and that value; if the call raises, [main] raises
    its error, and if it returns, the client it returned is the one
    [deploy_all] is run with. *)
Theorem main_passes_gas_price_in_wei opts (s : @state World Compiled Client) :
  ((let '(r, _, evs) := main env opts s in
    Forall (fun c => snd c = gas_price opts * 10 ^ 9) (new_clients evs)
    /\ (length (new_clients evs) <= 1)%nat
    /\ match r with
       | Ok _ => length (new_clients evs) = 1%nat
       | Raise _ => True
       end)
   /\ gas_price default_options = 4
   /\ (let '(_, _, evs) := main env default_options s in
       Forall (fun c => snd c = 4000000000) (new_clients evs)))
  /\ match prompt_account env (keystore_path opts) (world s) with
     | (Raise e, w) => main env opts s = (Raise e, set_world s w, [ConfigureLogging])
     | (Ok (_, privatekey), w) =>
         match patch_deploy_solidity_contract env (set_world s w) with
         | (Raise e, s2, _) => main env opts s = (Raise e, s2, [ConfigureLogging])
         | (Ok _, s2, _) =>
             new_clients (snd (main env opts s))
             = [("127.0.0.1", port opts, privatekey, gas_price opts * 10 ^ 9)]
             /\ match JSONRPCClient env "127.0.0.1" (port opts) privatekey
                        (gas_price opts * 10 ^ 9) (world s2) with
                | (Raise e, w3) =>
                    main env opts s
                    = (Raise e, set_world s2 w3,
                       [ConfigureLogging;
                        NewClient "127.0.0.1" (port opts) privatekey
                          (gas_price opts * 10 ^ 9)])
                | (Ok client, w3) =>
                    exists r s' rest,
                      main env opts s
                      = (r, s',
                         (ConfigureLogging
                            :: NewClient "127.0.0.1" (port opts) privatekey
                                 (gas_price opts * 10 ^ 9)
                            :: snd (deploy_all env client (set_world s2 w3))
                            ++ rest)%list)
                end
         end
     end.
Proof.
  split.
  {
  assert (Hgen : forall opts',
             let '(r, _, evs) := main env opts' s in
             Forall (fun c => snd c = gas_price opts' * 10 ^ 9) (new_clients evs)
             /\ (length (new_clients evs) <= 1)%nat
             /\ match r with
                | Ok _ => length (new_clients evs) = 1%nat
                | Raise _ => True
                end).
  { intros opts'. pose proof (main_cases env opts' s) as H.
    destruct (main env opts' s) as [[[[] | e] s'] evs].
    - destruct H as (privatekey & client & s0 & deployed & evs_d & text & Hd & _ & ->).
      pose proof (deploy_all_run env client s0) as Hrun. rewrite Hd in Hrun.
      destruct Hrun as (Hevs & _).
      rewrite new_clients_start, new_clients_app,
        (deployment_events_no_client _ Hevs).
      cbn. repeat split; auto.
    - destruct H as (_ & [-> | (privatekey & ->)]); cbn; repeat split; auto. }
  split; [exact (Hgen opts) |]. split; [reflexivity |].
  specialize (Hgen default_options).
  destruct (main env default_options s) as [[r s'] evs].
  exact (proj1 Hgen).
  }
  change (10 ^ 9) with 1000000000. rewrite main_run.
  destruct (prompt_account env (keystore_path opts) (world s))
    as [[[address_hex privatekey] | e] w]; [| reflexivity].
  destruct (patch_deploy_solidity_contract env (set_world s w))
    as [[[[] | e] s2] evs2]; [| reflexivity].
  cbv zeta.
  destruct (JSONRPCClient env "127.0.0.1" (port opts) privatekey
              (gas_price opts * 1000000000) (world s2)) as [[client | e] w3];
    [| split; reflexivity].
  pose proof (deploy_all_run env client (set_world s2 w3)) as Hd.
  destruct (deploy_all env client (set_world s2 w3)) as [[[deployed | e] s4] evs].
  - destruct Hd as (Hevs & _).
    pose proof (main_output_no_client env (pretty opts) deployed s4) as Ho.
    destruct (main_output env (pretty opts) deployed s4) as [[r s5] evs'].
    cbn [snd] in Ho |- *. split.
    + now rewrite new_clients_start, new_clients_app,
        (deployment_events_no_client _ Hevs), Ho.
    + now exists r, s5, evs'.
  - destruct Hd as (Hevs & _). cbn [snd]. split.
    + now rewrite new_clients_start, (deployment_events_no_client _ Hevs).
    + exists (Raise e), s4, []. now rewrite app_nil_r.
Qed.

(** C7.  [main] prints once when it returns, and never when it raises.
    With [--pretty] the text printed is indented by two spaces: an
    opening brace on its own line, then one line per entry that starts with
    exactly two spaces followed by the entry's quoted key, then the closing
    brace on its own line.  Without [--pretty] the text holds no newline.
    And [main] does print: when the account prompt, the patch step, the
    client's construction, the compilation, the two deployments and the
    address conversions all go through, [main] returns and the one text it
    prints is [json.dumps] of the merged result with the two converted
    values, with [indent=2] under [--pretty] and [indent=None] without. *)
Theorem main_prints_indented_or_compact_json opts (s : @state World Compiled Client) :
  (let '(r, _, evs) := main env opts s in
   match r with
   | Ok _ =>
       exists text,
         printed evs = [text]
         /\ if pretty opts
            then exists items,
                   lines text = ("{" :: items ++ ["}"])%list
                   /\ items <> []
                   /\ Forall (indented_by 2) items
            else has_newline text = false
   | Raise _ => printed evs = []
   end)
  /\ forall address_hex privatekey w s2 evs2 client w3 compiled w0
            proxy1 written1 w1 checksum1 proxy2 written2 w2 checksum2
            deployed raw_e a_e raw_r a_r,
       prompt_account env (keystore_path opts) (world s)
       = (Ok (address_hex, privatekey), w) ->
       patch_deploy_solidity_contract env (set_world s w) = (Ok tt, s2, evs2) ->
       JSONRPCClient env "127.0.0.1" (port opts) privatekey
         (gas_price opts * 1000000000) w = (Ok client, w3) ->
       compile_files_cwd env (map (get_contract_path env) RAIDEN_CONTRACT_FILES) w3
       = (Ok compiled, w0) ->
       method s2 client "Registry" compiled [] "" "Registry.sol" w0
       = (Ok (proxy1, written1), w1) ->
       to_checksum_address env (contract_address proxy1) = Ok checksum1 ->
       method s2 client "EndpointRegistry" compiled [] "" "EndpointRegistry.sol" w1
       = (Ok (proxy2, written2), w2) ->
       to_checksum_address env (contract_address proxy2) = Ok checksum2 ->
       deployed
       = dict_update
           (dict_update [] (dict_set "Registry.sol:Registry"
                              (contract_address proxy1) written1))
           (dict_set "EndpointRegistry.sol:EndpointRegistry"
              (contract_address proxy2) written2) ->
       dict_get "EndpointRegistry.sol:EndpointRegistry" deployed = Some raw_e ->
       to_checksum_address env raw_e = Ok a_e ->
       dict_get "Registry.sol:Registry" deployed = Some raw_r ->
       to_checksum_address env raw_r = Ok a_r ->
       fst (fst (main env opts s)) = Ok tt
       /\ printed (snd (main env opts s))
          = [json_dumps
               (dict_set "Registry.sol:Registry" a_r
                  (dict_set "EndpointRegistry.sol:EndpointRegistry" a_e deployed))
               (if pretty opts then Some 2%nat else None)].
Proof.
  split;
    [| intros address_hex privatekey w s2 evs2 client w3 compiled w0
              proxy1 written1 w1 checksum1 proxy2 written2 w2 checksum2
              deployed raw_e a_e raw_r a_r
              Hprompt Hpatch Hclient Hcompile Hcall1 Hsum1 Hcall2 Hsum2 Hdeployed
              Hget_e Hsum_e Hget_r Hsum_r;
       rewrite (main_success_run env opts s _ _ _ _ _ _ _ _ _ _ _ _ _ _ _ _ _ _ _ _ _ _
                  Hprompt Hpatch Hclient Hcompile Hcall1 Hsum1 Hcall2 Hsum2
                  Hdeployed Hget_e Hsum_e Hget_r Hsum_r);
       split; reflexivity].
  pose proof (main_cases env opts s) as H.
  destruct (main env opts s) as [[[[] | e] s'] evs]; [| exact (proj1 H)].
  destruct H as (privatekey & client & s0 & deployed & evs_d & text & Hd & Ho & ->).
  destruct (main_output_ok env _ _ _ _ _ Ho)
    as (raw_e & a_e & raw_r & a_r & _ & _ & _ & _ & _ & Htext).
  injection Htext as ->.
  pose proof (deploy_all_run env client s0) as Hrun. rewrite Hd in Hrun.
  destruct Hrun as (Hevs & _).
  eexists. split.
  - rewrite printed_start, printed_app, (deployment_events_print_nothing _ Hevs).
    reflexivity.
  - destruct (pretty opts).
    + eexists. split; [apply json_dumps_indent_lines, dict_set_not_empty |].
      split; [| apply item_lines_indented].
      intros Hnil. apply (f_equal (@length string)) in Hnil.
      rewrite item_lines_length, length_map in Hnil.
      apply length_zero_iff_nil in Hnil. now apply dict_set_not_empty in Hnil.
    + apply json_dumps_compact_one_line.
Qed.

(** C10.  From the dict [deploy_all] returned, [main] changes only the
    values at ['EndpointRegistry.sol:EndpointRegistry'] and
    ['Registry.sol:Registry'], which become the checksum form of what was
    there; the keys, their order and every other entry are printed as they
    were.  If either key is absent the lookup raises and nothing has been
    printed ([KeyError] for the first key; for the second, [KeyError] or an
    error of the first conversion). *)
Theorem main_output_changes_only_the_two_top_level_entries
    pretty deployed (s : @state World Compiled Client) :
  match main_output env pretty deployed s with
  | (Ok _, _, evs) =>
      exists raw_e a_e raw_r a_r,
        dict_get "EndpointRegistry.sol:EndpointRegistry" deployed = Some raw_e
        /\ to_checksum_address env raw_e = Ok a_e
        /\ dict_get "Registry.sol:Registry" deployed = Some raw_r
        /\ to_checksum_address env raw_r = Ok a_r
        /\ let out := dict_set "Registry.sol:Registry" a_r
                        (dict_set "EndpointRegistry.sol:EndpointRegistry" a_e deployed) in
           evs = [Print (json_dumps out (if pretty then Some 2%nat else None))]
           /\ keys out = keys deployed
           /\ dict_get "EndpointRegistry.sol:EndpointRegistry" out = Some a_e
           /\ dict_get "Registry.sol:Registry" out = Some a_r
           /\ forall k,
                k <> "EndpointRegistry.sol:EndpointRegistry" ->
                k <> "Registry.sol:Registry" ->
                dict_get k out = dict_get k deployed
  | (Raise _, _, evs) => evs = []
  end
  /\ (dict_get "EndpointRegistry.sol:EndpointRegistry" deployed = None ->
      main_output env pretty deployed s
      = (Raise (KeyError "EndpointRegistry.sol:EndpointRegistry"), s, []))
  /\ (dict_get "Registry.sol:Registry" deployed = None ->
      exists e, main_output env pretty deployed s = (Raise e, s, [])).
Proof.
  split; [| split].
  - destruct (main_output env pretty deployed s) as [[[[] | e] s'] evs] eqn:Eo.
    + destruct (main_output_ok env _ _ _ _ _ Eo)
        as (raw_e & a_e & raw_r & a_r & He & Hce & Hr & Hcr & _ & ->).
      exists raw_e, a_e, raw_r, a_r. repeat (split; [assumption |]).
      cbv zeta. split; [reflexivity |].
      exact (converted_dict deployed raw_e raw_r a_e a_r He Hr).
    + exact (proj2 (main_output_raise env _ _ _ _ _ _ Eo)).
  - intros Habsent. now rewrite main_output_run, Habsent.
  - intros Habsent. rewrite main_output_run.
    destruct (dict_get "EndpointRegistry.sol:EndpointRegistry" deployed) as [raw_e |];
      [| eauto].
    destruct (to_checksum_address env raw_e) as [a_e | e]; [| eauto].
    cbv zeta. rewrite dict_get_set_other by discriminate.
    rewrite Habsent. eauto.
Qed.

End Script.

(** C9.  The transformer removes every [Assign] node whose only target is
    the name [libraries] and whose column offset is 4, whatever its
    right-hand side, and keeps every other [Assign] node as it is: the
    [Assign] nodes of the transformed tree are those of the tree that fail
    the test, unchanged and in order; and the test looks at the column and
    the targets only. *)
Theorem transformer_removes_exactly_the_libraries_assignments (tree : Ast.node) :
  Ast.assigns_opt (Ast.visit tree) = filter Ast.kept (Ast.assigns tree)
  /\ forall col_offset targets value,
       Ast.removed (Ast.Assign col_offset targets value) = true
       <-> col_offset = 4
           /\ exists c ctx, targets = [Ast.Name c "libraries" ctx].
Proof.
  split; [apply AstFacts.assigns_visit |].
  intros col_offset targets value. unfold Ast.removed, Ast.is_libraries. split.
  - intros H. apply andb_prop in H as [H Hid]. apply andb_prop in H as [Hlen Hcol].
    apply Z.eqb_eq in Hcol. split; [exact Hcol |].
    destruct targets as [| [c id ctx | |] [| t2 rest]]; try discriminate.
    apply String.eqb_eq in Hid. subst id. now exists c, ctx.
  - intros [-> (c & ctx & ->)]. reflexivity.
Qed.

(** ** The claims on the test double *)

Lemma mock_copying_method_leaves_libraries :
  leaves_libraries (Mock.deploy_method true).
Proof.
  intros client name compiled libraries params path w proxy written w' H.
  unfold Mock.deploy_method in H.
  destruct (Mock.deploy_body name libraries) as [[p wr] sent].
  now injection H as _ <- _.
Qed.

(** The patch step on the upstream source makes the method share the
    caller's dict. *)
Example patch_on_upstream_source :
  patch_deploy_solidity_contract Mock.eip55 (Mock.start Mock.upstream_source)
  = (Ok tt, Mock.patched, []).
Proof. reflexivity. Qed.

(** A whole run on the test double: the patched method records the two
    libraries it deploys for [Registry], and [main] prints them as recorded
    next to the checksum addresses of the two top-level contracts. *)
Example main_end_to_end :
  printed (snd (main Mock.eip55 default_options (Mock.start Mock.upstream_source)))
  = [json_dumps
       [("NettingChannelLibrary.sol:NettingChannelLibrary",
         Mock.netting_channel_library_address);
        ("ChannelManagerLibrary.sol:ChannelManagerLibrary",
         Mock.channel_manager_library_address);
        ("Registry.sol:Registry", "0xaAaAaAaaAaAaAaaAaAAAAAAAAaaaAaAaAaaAaaAa");
        ("EndpointRegistry.sol:EndpointRegistry",
         "0xbBbBBBBbbBBBbbbBbbBbbbbBBbBbbbbBbBbbBBbB")]
       None].
Proof. vm_compute. reflexivity. Qed.

Lemma deploy_all_calls_each_contract_once_in_order_witness :
  exists evs,
    deploy_all Mock.eip55 Mock.a_client Mock.patched
    = (Ok (dict_update
             (dict_update []
                (dict_set "Registry.sol:Registry" Mock.registry_address
                   [("NettingChannelLibrary.sol:NettingChannelLibrary",
                     Mock.netting_channel_library_address);
                    ("ChannelManagerLibrary.sol:ChannelManagerLibrary",
                     Mock.channel_manager_library_address)]))
             (dict_set "EndpointRegistry.sol:EndpointRegistry"
                Mock.endpoint_registry_address [])),
       set_world Mock.patched 4%nat, evs)
    /\ deploy_calls evs
       = [("Registry", [], "", "Registry.sol");
          ("EndpointRegistry", [], "", "EndpointRegistry.sol")].
Proof.
  exact (proj2 (deploy_all_calls_each_contract_once_in_order Mock.eip55
                  Mock.a_client Mock.patched)).
Defined.

Lemma main_passes_gas_price_in_wei_witness :
  new_clients (snd (main Mock.eip55 default_options (Mock.start Mock.upstream_source)))
  = [("127.0.0.1", 8545, "key", 4000000000)].
Proof.
  exact (proj1 (proj2 (main_passes_gas_price_in_wei Mock.eip55 default_options
                         (Mock.start Mock.upstream_source)))).
Defined.

Lemma main_prints_indented_or_compact_json_witness :
  fst (fst (main Mock.eip55 default_options (Mock.start Mock.upstream_source)))
  = Ok tt
  /\ printed (snd (main Mock.eip55 default_options (Mock.start Mock.upstream_source)))
     = [json_dumps
          [("NettingChannelLibrary.sol:NettingChannelLibrary",
            Mock.netting_channel_library_address);
           ("ChannelManagerLibrary.sol:ChannelManagerLibrary",
            Mock.channel_manager_library_address);
           ("Registry.sol:Registry", "0xaAaAaAaaAaAaAaaAaAAAAAAAAaaaAaAaAaaAaaAa");
           ("EndpointRegistry.sol:EndpointRegistry",
            "0xbBbBBBBbbBBBbbbBbbBbbbbBBbBbbbbBbBbbBBbB")]
          None].
Proof.
  apply (proj2 (main_prints_indented_or_compact_json Mock.eip55 default_options
                  (Mock.start Mock.upstream_source))
           ("0x" ++ Mock.replicate 40 "e") "key" 0%nat Mock.patched []
           Mock.a_client 0%nat tt 0%nat
           {| contract_address := Mock.registry_address |}
           [("NettingChannelLibrary.sol:NettingChannelLibrary",
             Mock.netting_channel_library_address);
            ("ChannelManagerLibrary.sol:ChannelManagerLibrary",
             Mock.channel_manager_library_address)]
           3%nat "0xaAaAaAaaAaAaAaaAaAAAAAAAAaaaAaAaAaaAaaAa"
           {| contract_address := Mock.endpoint_registry_address |}
           [] 4%nat "0xbBbBBBBbbBBBbbbBbbBbbbbBBbBbbbbBbBbbBBbB"
           [("NettingChannelLibrary.sol:NettingChannelLibrary",
             Mock.netting_channel_library_address);
            ("ChannelManagerLibrary.sol:ChannelManagerLibrary",
             Mock.channel_manager_library_address);
            ("Registry.sol:Registry", Mock.registry_address);
            ("EndpointRegistry.sol:EndpointRegistry", Mock.endpoint_registry_address)]
           Mock.endpoint_registry_address
           "0xbBbBBBBbbBBBbbbBbbBbbbbBBbBbbbbBbBbbBBbB"
           Mock.registry_address
           "0xaAaAaAaaAaAaAaaAaAAAAAAAAaaaAaAaAaaAaaAa");
    try reflexivity; vm_compute; reflexivity.
Defined.

Lemma deploy_file_returns_libraries_with_own_entry_witness :
  leaves_libraries (method (Mock.start Mock.upstream_source))
  /\ dict_set "Registry.sol:Registry" Mock.registry_address []
     = [("Registry.sol:Registry", Mock.registry_address)].
Proof.
  split; [exact mock_copying_method_leaves_libraries |].
  pose proof (deploy_file_returns_libraries_with_own_entry Mock.eip55
                "Registry.sol:Registry" tt Mock.a_client
                (Mock.start Mock.upstream_source)) as H.
  vm_compute in H. destruct H as (_ & _ & H).
  vm_compute. apply H. exact mock_copying_method_leaves_libraries.
Defined.

(** C2 as stated fails: with the patched client of the test double,
    [deploy_file] for [Registry] returns three entries, the two library
    addresses the deployment recorded and the contract's own. *)
Lemma deploy_file_returns_the_library_entries_too :
  fst (fst (deploy_file Mock.eip55 "Registry.sol:Registry" tt Mock.a_client
              Mock.patched))
  = Ok [("NettingChannelLibrary.sol:NettingChannelLibrary",
         Mock.netting_channel_library_address);
        ("ChannelManagerLibrary.sol:ChannelManagerLibrary",
         Mock.channel_manager_library_address);
        ("Registry.sol:Registry", Mock.registry_address)].
Proof. vm_compute. reflexivity. Qed.

Lemma deploy_all_passes_empty_libraries_and_accumulates_witness :
  leaves_libraries (method (Mock.start Mock.upstream_source))
  /\ exists deployed,
       fst (fst (deploy_all Mock.eip55 Mock.a_client (Mock.start Mock.upstream_source)))
       = Ok deployed
       /\ keys deployed = CONTRACTS_TO_DEPLOY.
Proof.
  split; [exact mock_copying_method_leaves_libraries |].
  pose proof (deploy_all_passes_empty_libraries_and_accumulates Mock.eip55
                Mock.a_client (Mock.start Mock.upstream_source)) as H.
  destruct (deploy_all Mock.eip55 Mock.a_client (Mock.start Mock.upstream_source))
    as [[[deployed | e] s'] evs] eqn:E.
  - exists deployed. split; [reflexivity |].
    destruct H as (_ & _ & H). apply H. exact mock_copying_method_leaves_libraries.
  - vm_compute in E. discriminate E.
Defined.

(** C3 as stated fails: on the test double, after the patch, the address of
    [Registry] is recorded in the accumulator, yet the call that deploys
    [EndpointRegistry] is given an empty map, as the first call was; no call
    can read an earlier address through its [libraries]. *)
Lemma later_deployment_call_cannot_read_earlier_address :
  exists deployed,
    fst (fst (deploy_all Mock.eip55 Mock.a_client Mock.patched)) = Ok deployed
    /\ dict_get "Registry.sol:Registry" deployed = Some Mock.registry_address
    /\ deploy_calls (snd (deploy_all Mock.eip55 Mock.a_client Mock.patched))
       = [("Registry", [], "", "Registry.sol");
          ("EndpointRegistry", [], "", "EndpointRegistry.sol")]
    /\ calls_linked []
         (deploy_calls (snd (deploy_all Mock.eip55 Mock.a_client Mock.patched)))
       = false.
Proof. eexists. vm_compute. repeat split. Qed.

Lemma patch_without_pattern_rebinds_unchanged_source_witness :
  Ast.has_pattern (method_source (Mock.start Mock.fixed_upstream_source)) = false
  /\ patch_deploy_solidity_contract Mock.eip55 (Mock.start Mock.fixed_upstream_source)
     = rebind Mock.eip55 (Some Mock.fixed_upstream_source)
         (Mock.start Mock.fixed_upstream_source).
Proof.
  split; [reflexivity |].
  apply (patch_without_pattern_rebinds_unchanged_source Mock.eip55
           (Mock.start Mock.fixed_upstream_source)).
  reflexivity.
Defined.

(** C4 as stated fails: the source of the test double's later upstream has
    no assignment to [libraries] at column 4, and the patch step completes
    without an error, leaving the method as it was. *)
Lemma patch_completes_on_source_without_pattern :
  Ast.has_pattern Mock.fixed_upstream_source = false
  /\ patch_deploy_solidity_contract Mock.eip55 (Mock.start Mock.fixed_upstream_source)
     = (Ok tt, Mock.start Mock.fixed_upstream_source, []).
Proof. split; reflexivity. Qed.



Lemma main_output_changes_only_the_two_top_level_entries_witness :
  dict_get "EndpointRegistry.sol:EndpointRegistry"
    [("Registry.sol:Registry", Mock.registry_address)] = None
  /\ main_output Mock.eip55 false
       [("Registry.sol:Registry", Mock.registry_address)] Mock.patched
     = (Raise (KeyError "EndpointRegistry.sol:EndpointRegistry"), Mock.patched, []).
Proof.
  split; [reflexivity |].
  apply (main_output_changes_only_the_two_top_level_entries Mock.eip55 false
           [("Registry.sol:Registry", Mock.registry_address)] Mock.patched).
  reflexivity.
Defined.

Lemma transformer_removes_exactly_the_libraries_assignments_witness :
  Ast.removed (Mock.copy_statement 4) = true.
Proof.
  apply (transformer_removes_exactly_the_libraries_assignments Mock.upstream_source).
  split; [reflexivity |]. now exists 4, Ast.Store.
Defined.

End Claims.

(** * Further properties of the script *)

Module Extras.

Import Py Deploy PyFacts DeployFacts.

(** ** [name_from_file] *)

Lemma has_slash_contains (s : string) : has_slash s = contains "/" s.
Proof.
  induction s as [| c s IH]; simpl; [reflexivity |]. now rewrite IH.
Qed.

Lemma contains_app (c : ascii) (a b : string) :
  contains c (a ++ b) = (contains c a || contains c b)%bool.
Proof.
  induction a as [| x a IH]; simpl; [reflexivity |].
  now rewrite IH, orb_assoc.
Qed.

Lemma basename_without_slash (path : string) :
  has_slash path = false -> basename path = path.
Proof.
  destruct path as [| c rest]; [reflexivity |].
  intros H. cbn [basename]. cbn [has_slash] in H. now rewrite H.
Qed.

Lemma basename_after_slash (dir rest : string) :
  basename (dir ++ String "/" rest) = basename rest.
Proof.
  induction dir as [| c dir IH]; [reflexivity |].
  cbn [append basename]. rewrite has_slash_contains, contains_app.
  cbn [contains]. rewrite Ascii.eqb_refl, orb_true_r, orb_true_r. exact IH.
Qed.

Lemma basename_has_no_slash (path : string) : has_slash (basename path) = false.
Proof.
  induction path as [| c rest IH]; [reflexivity |].
  cbn [basename]. destruct (Ascii.eqb c "/" || has_slash rest)%bool eqn:E;
    [exact IH | exact E].
Qed.

(** [partition] splits at the first separator: the three parts make up the
    string, the first has no separator, and the separator is missing only
    when the string has none. *)
Lemma partition_spec (sep : ascii) (s : string) :
  let '(before, found, after) := partition sep s in
  before ++ found ++ after = s
  /\ contains sep before = false
  /\ if contains sep s
     then found = String sep EmptyString
     else found = EmptyString /\ after = EmptyString /\ before = s.
Proof.
  induction s as [| c s IH]; [repeat split |].
  cbn [partition contains]. destruct (Ascii.eqb c sep) eqn:E.
  - apply Ascii.eqb_eq in E. subst c. repeat split.
  - destruct (partition sep s) as [[before found] after].
    destruct IH as (Hjoin & Hbefore & Hfound).
    cbn [append contains orb]. rewrite E, Hjoin. cbn [orb].
    split; [reflexivity |]. split; [exact Hbefore |].
    destruct (contains sep s); [exact Hfound |].
    destruct Hfound as (-> & -> & ->). repeat split.
Qed.

Lemma partition_at_separator (sep : ascii) (before after : string) :
  contains sep before = false ->
  partition sep (before ++ String sep after)
  = (before, String sep EmptyString, after).
Proof.
  induction before as [| c before IH]; intros H.
  - cbn. now rewrite Ascii.eqb_refl.
  - cbn [contains] in H. apply orb_false_elim in H as [Hc Hb].
    cbn [append partition]. now rewrite Hc, (IH Hb).
Qed.

Lemma contains_prefix (c : ascii) (a b : string) :
  contains c (a ++ b) = false -> contains c a = false.
Proof.
  rewrite contains_app. intros H. now apply orb_false_elim in H.
Qed.

(** X1.  [name_from_file] gives back the contract name a source path was
    built from: for a name without dot or slash and an extension without
    slash, the name of [dir/name.ext] is [name], whatever the directory. *)
Theorem name_from_file_of_path (dir name ext : string) :
  contains "/" name = false ->
  contains "." name = false ->
  contains "/" ext = false ->
  name_from_file (dir ++ String "/" (name ++ String "." ext)) = name.
Proof.
  intros Hslash Hdot Hext. unfold name_from_file.
  rewrite basename_after_slash, basename_without_slash.
  - now rewrite (partition_at_separator "." name ext Hdot).
  - rewrite has_slash_contains, contains_app. cbn [contains].
    rewrite Hslash, Hext. reflexivity.
Qed.

Lemma name_from_file_of_path_witness :
  name_from_file ("raiden/smart_contracts" ++ String "/" ("Registry" ++ String "." "sol"))
  = "Registry".
Proof.
  apply (name_from_file_of_path "raiden/smart_contracts" "Registry" "sol");
    reflexivity.
Defined.

(** X2.  Whatever the path, the name [name_from_file] returns holds neither
    a slash nor a dot, and it is a prefix of the last component of the
    path. *)
Theorem name_from_file_is_a_bare_name (filename : string) :
  contains "/" (name_from_file filename) = false
  /\ contains "." (name_from_file filename) = false
  /\ exists rest, basename filename = name_from_file filename ++ rest.
Proof.
  unfold name_from_file.
  pose proof (partition_spec "." (basename filename)) as H.
  pose proof (basename_has_no_slash filename) as Hb.
  destruct (partition "." (basename filename)) as [[before found] after].
  destruct H as (Hjoin & Hdot & _). cbn [fst].
  split; [| split; [exact Hdot | now exists (found ++ after)]].
  rewrite has_slash_contains, <- Hjoin in Hb. now apply contains_prefix in Hb.
Qed.

(** ** The transformer *)

Lemma no_removed_among_kept (l : list Ast.node) :
  existsb Ast.removed (filter Ast.kept l) = false.
Proof.
  induction l as [| n l IH]; [reflexivity |].
  cbn [filter]. unfold Ast.kept at 1.
  destruct (Ast.removed n) eqn:E; cbn [negb existsb]; [exact IH |].
  now rewrite E, IH.
Qed.

(** X3.  The transformer does its work in one pass: the tree it returns has
    no assignment left that it would remove, so transforming it again
    returns it as it is.  It returns [None] only for a tree that is itself
    such an assignment, never for a module. *)
Theorem transformed_tree_is_a_fixed_point (tree : Ast.node) :
  match Ast.visit tree with
  | Some tree' => Ast.has_pattern tree' = false /\ Ast.visit tree' = Some tree'
  | None => Ast.removed tree = true
  end.
Proof.
  pose proof (AstFacts.assigns_visit tree) as H.
  destruct (Ast.visit tree) as [tree' |] eqn:E.
  - assert (Hno : Ast.has_pattern tree' = false).
    { unfold Ast.has_pattern. cbn [Ast.assigns_opt] in H. rewrite H.
      apply no_removed_among_kept. }
    split; [exact Hno | now apply AstFacts.visit_without_pattern].
  - destruct tree as [c id ctx | c targets value | cls c fields];
      try discriminate E.
    cbn in E |- *. unfold Ast.visit_Assign in E.
    now destruct (Ast.is_libraries c targets).
Qed.

(** ** Dicts without a repeated key *)

Lemma dict_get_none (k : string) (d : dict) :
  ~ In k (keys d) -> dict_get k d = None.
Proof.
  unfold keys. induction d as [| [k' v'] d IH]; [reflexivity |].
  cbn [map fst In dict_get]. intros H.
  destruct (String.eqb k k') eqn:E.
  - apply String.eqb_eq in E. subst k'. exfalso. apply H. now left.
  - apply IH. intros Hin. apply H. now right.
Qed.

(** [d.update(other)] looks up as [other] where [other] has the key, and as
    [d] elsewhere. *)
Lemma dict_get_update (k : string) (other : dict) :
  NoDup (keys other) ->
  forall d,
    dict_get k (dict_update d other)
    = match dict_get k other with
      | Some v => Some v
      | None => dict_get k d
      end.
Proof.
  unfold dict_update.
  induction other as [| [k' v'] other IH]; intros Hnd d; [reflexivity |].
  cbn [keys map fst] in Hnd. apply NoDup_cons_iff in Hnd as [Hnotin Hnd].
  cbn [fold_left fst snd dict_get]. rewrite (IH Hnd).
  destruct (String.eqb k k') eqn:E.
  - apply String.eqb_eq in E. subst k'.
    now rewrite (dict_get_none k other Hnotin), dict_get_set_same.
  - apply String.eqb_neq in E. now rewrite dict_get_set_other by exact E.
Qed.

Lemma add_key_in (k x : string) (ks : list string) :
  In x (add_key k ks) -> x = k \/ In x ks.
Proof.
  induction ks as [| k' ks IH]; cbn [add_key].
  - intros [<- | []]. now left.
  - destruct (String.eqb k k'); [now right |].
    intros [<- | H]; [right; now left |].
    destruct (IH H) as [-> | Hin]; [now left | right; now right].
Qed.

Lemma add_key_NoDup (k : string) (ks : list string) :
  NoDup ks -> NoDup (add_key k ks).
Proof.
  induction 1 as [| k' ks Hnotin Hnd IH]; cbn [add_key].
  - constructor; [intros [] | constructor].
  - destruct (String.eqb k k') eqn:E; [now constructor |].
    constructor; [| exact IH].
    intros Hin. destruct (add_key_in _ _ _ Hin) as [-> | H]; [| contradiction].
    now rewrite String.eqb_refl in E.
Qed.

Lemma dict_set_NoDup (k v : string) (d : dict) :
  NoDup (keys d) -> NoDup (keys (dict_set k v d)).
Proof. rewrite keys_set. apply add_key_NoDup. Qed.

(** Looking up the two top-level references in the merge of the two maps
    [deploy_file] returns. *)
Lemma merged_lookup (written1 written2 : dict) (a1 a2 : string) :
  let deployed :=
    dict_update
      (dict_update [] (dict_set "Registry.sol:Registry" a1 written1))
      (dict_set "EndpointRegistry.sol:EndpointRegistry" a2 written2) in
  (NoDup (keys written2) ->
   dict_get "EndpointRegistry.sol:EndpointRegistry" deployed = Some a2)
  /\ (NoDup (keys written1) -> NoDup (keys written2) ->
      dict_get "Registry.sol:Registry" written2 = None ->
      dict_get "Registry.sol:Registry" deployed = Some a1).
Proof.
  cbv zeta. split.
  - intros Hnd2. rewrite dict_get_update by now apply dict_set_NoDup.
    now rewrite dict_get_set_same.
  - intros Hnd1 Hnd2 Hnone.
    rewrite dict_get_update by now apply dict_set_NoDup.
    rewrite dict_get_set_other by discriminate. rewrite Hnone.
    rewrite dict_get_update by now apply dict_set_NoDup.
    now rewrite dict_get_set_same.
Qed.

Example partition_of_the_contracts_to_deploy :
  map (partition ":"%char) CONTRACTS_TO_DEPLOY
  = [("Registry.sol", ":", "Registry");
     ("EndpointRegistry.sol", ":", "EndpointRegistry")].
Proof. reflexivity. Qed.

Section Script.

Context {World Compiled Client Code : Type}.
Variable env : @Env World Compiled Client Code.

(** ** [deploy_file] *)

(** X4.  [deploy_file] makes one deployment call, whatever happens after
    it, and splits the Contract Reference at its first colon: the file is
    what comes before it and holds no colon, the contract name is all that
    follows, and joined by a colon they give the reference back.  A
    reference without a colon is passed as the file, with an empty contract
    name. *)
Theorem deploy_file_splits_reference_at_first_colon
    contract compiled client (s : @state World Compiled Client) :
  exists name path,
    deploy_calls (snd (deploy_file env contract compiled client s))
    = [(name, [], "", path)]
    /\ contains ":" path = false
    /\ if contains ":" contract
       then path ++ String ":" name = contract
       else name = "" /\ path = contract.
Proof.
  rewrite deploy_file_run.
  pose proof (partition_spec ":" contract) as H.
  destruct (partition ":"%char contract) as [[filename sep] name].
  destruct H as (Hjoin & Hpath & Hsep).
  exists name, filename. split; [| split; [exact Hpath |]].
  - destruct (method s client name compiled [] "" filename (world s))
      as [[[proxy written] | e] w]; [| reflexivity].
    destruct (to_checksum_address env (contract_address proxy)); reflexivity.
  - destruct (contains ":" contract).
    + now rewrite Hsep in Hjoin.
    + destruct Hsep as (_ & -> & ->). now split.
Qed.

(** ** The patch step *)

(** X5.  [patch_deploy_solidity_contract] either rebinds the method or
    changes nothing: when it raises, the class still has the method it had;
    when it returns, the method is the function that compiling and executing
    the transformed source defined under the name
    [deploy_solidity_contract].  Either way it emits nothing and leaves the
    world alone. *)
Theorem patch_rebinds_or_changes_nothing (s : @state World Compiled Client) :
  match patch_deploy_solidity_contract env s with
  | (Ok _, s', evs) =>
      evs = [] /\ world s' = world s
      /\ exists code ctx,
           py_compile env (Ast.visit (method_source s)) = Ok code
           /\ py_exec env code = Ok ctx
           /\ ctx_getitem "deploy_solidity_contract" ctx = Ok (method s')
  | (Raise _, s', evs) => s' = s /\ evs = []
  end.
Proof.
  rewrite patch_unfold, rebind_run.
  destruct (py_compile env _) as [code | e] eqn:Ec; [| now split].
  destruct (py_exec env code) as [ctx | e] eqn:Ex; [| now split].
  destruct (ctx_getitem "deploy_solidity_contract" ctx) as [f | e] eqn:Eg;
    [| now split].
  repeat split. now exists code, ctx.
Qed.

(** ** [deploy_all] *)

(** X6.  When compilation and both deployments go through, [deploy_all]
    returns: the second deployment runs in the world the first one left, each
    with an empty [libraries]; the result is the first returned map merged
    with the second.  With dicts that hold no key twice, the result maps
    [EndpointRegistry]'s reference to the address its deployment returned, and
    [Registry]'s reference to the address its deployment returned unless the
    second deployment recorded that key itself. *)
Theorem deploy_all_returns_the_merged_addresses
    client (s : @state World Compiled Client)
    compiled w0 proxy1 written1 w1 checksum1 proxy2 written2 w2 checksum2 :
  compile_files_cwd env (map (get_contract_path env) RAIDEN_CONTRACT_FILES) (world s)
  = (Ok compiled, w0) ->
  method s client "Registry" compiled [] "" "Registry.sol" w0
  = (Ok (proxy1, written1), w1) ->
  to_checksum_address env (contract_address proxy1) = Ok checksum1 ->
  method s client "EndpointRegistry" compiled [] "" "EndpointRegistry.sol" w1
  = (Ok (proxy2, written2), w2) ->
  to_checksum_address env (contract_address proxy2) = Ok checksum2 ->
  let deployed :=
    dict_update
      (dict_update [] (dict_set "Registry.sol:Registry"
                         (contract_address proxy1) written1))
      (dict_set "EndpointRegistry.sol:EndpointRegistry"
         (contract_address proxy2) written2) in
  deploy_all env client s
  = (Ok deployed, set_world s w2,
     [LogInfo "Deploying Registry";
      DeployCall "Registry" [] "" "Registry.sol";
      LogInfo ("Deployed Registry @ " ++ checksum1);
      LogInfo "Deploying EndpointRegistry";
      DeployCall "EndpointRegistry" [] "" "EndpointRegistry.sol";
      LogInfo ("Deployed EndpointRegistry @ " ++ checksum2)])
  /\ (NoDup (keys written2) ->
      dict_get "EndpointRegistry.sol:EndpointRegistry" deployed
      = Some (contract_address proxy2))
  /\ (NoDup (keys written1) -> NoDup (keys written2) ->
      dict_get "Registry.sol:Registry" written2 = None ->
      dict_get "Registry.sol:Registry" deployed = Some (contract_address proxy1)).
Proof.
  intros Hcompile Hcall1 Hsum1 Hcall2 Hsum2 deployed. subst deployed.
  split; [| exact (merged_lookup written1 written2 _ _)].
  rewrite deploy_all_two_steps, Hcompile, deploy_file_run.
  cbn [partition Ascii.eqb Bool.eqb]. cbn [set_world world method].
  rewrite Hcall1, Hsum1, deploy_file_run.
  cbn [partition Ascii.eqb Bool.eqb]. cbn [set_world world method].
  rewrite Hcall2, Hsum2. reflexivity.
Qed.

(** X7.  When the deployment of [EndpointRegistry] fails, after [Registry]
    was deployed, [deploy_all] raises the same error: the map with
    [Registry]'s address is not returned, nothing is undone (the world is
    the one the failed call left), and no call is made again. *)
Theorem deploy_all_loses_the_first_address_when_the_second_fails
    client (s : @state World Compiled Client)
    compiled w0 proxy1 written1 w1 checksum1 e w2 :
  compile_files_cwd env (map (get_contract_path env) RAIDEN_CONTRACT_FILES) (world s)
  = (Ok compiled, w0) ->
  method s client "Registry" compiled [] "" "Registry.sol" w0
  = (Ok (proxy1, written1), w1) ->
  to_checksum_address env (contract_address proxy1) = Ok checksum1 ->
  method s client "EndpointRegistry" compiled [] "" "EndpointRegistry.sol" w1
  = (Raise e, w2) ->
  deploy_all env client s
  = (Raise e, set_world s w2,
     [LogInfo "Deploying Registry";
      DeployCall "Registry" [] "" "Registry.sol";
      LogInfo ("Deployed Registry @ " ++ checksum1);
      LogInfo "Deploying EndpointRegistry";
      DeployCall "EndpointRegistry" [] "" "EndpointRegistry.sol"]).
Proof.
  intros Hcompile Hcall1 Hsum1 Hcall2.
  rewrite deploy_all_two_steps, Hcompile, deploy_file_run.
  cbn [partition Ascii.eqb Bool.eqb]. cbn [set_world world method].
  rewrite Hcall1, Hsum1, deploy_file_run.
  cbn [partition Ascii.eqb Bool.eqb]. cbn [set_world world method].
  rewrite Hcall2. reflexivity.
Qed.

(** X8.  When [deploy_file] fails for [Registry] (the deployment call
    raises, or the address it returns cannot be formatted for the log line),
    [deploy_all] raises the same error at once: [EndpointRegistry] is never
    attempted, and the one deployment call made is [Registry]'s. *)
Theorem deploy_all_stops_at_the_first_failure
    client (s : @state World Compiled Client) compiled w0 e s1 evs1 :
  compile_files_cwd env (map (get_contract_path env) RAIDEN_CONTRACT_FILES) (world s)
  = (Ok compiled, w0) ->
  deploy_file env "Registry.sol:Registry" compiled client (set_world s w0)
  = (Raise e, s1, evs1) ->
  deploy_all env client s = (Raise e, s1, evs1)
  /\ deploy_calls evs1 = [("Registry", [], "", "Registry.sol")].
Proof.
  intros Hcompile Hfile. rewrite deploy_all_two_steps, Hcompile, Hfile.
  split; [reflexivity |].
  rewrite deploy_file_run in Hfile. cbn [partition Ascii.eqb Bool.eqb] in Hfile.
  destruct (method (set_world s w0) client "Registry" compiled [] "" "Registry.sol"
              (world (set_world s w0))) as [[[proxy written] | e'] w].
  - destruct (to_checksum_address env (contract_address proxy));
      [discriminate |]. now injection Hfile as _ _ <-.
  - now injection Hfile as _ _ <-.
Qed.

(** ** [main] *)

(** X9.  When the patch step fails, [main] stops there with the same error:
    the account has been resolved and logging configured, but no client is
    constructed, nothing is deployed or printed, and the class keeps its
    method. *)
Theorem main_stops_when_the_patch_fails
    opts (s : @state World Compiled Client) address_hex privatekey w e s2 evs2 :
  prompt_account env (keystore_path opts) (world s)
  = (Ok (address_hex, privatekey), w) ->
  patch_deploy_solidity_contract env (set_world s w) = (Raise e, s2, evs2) ->
  main env opts s = (Raise e, set_world s w, [ConfigureLogging]).
Proof.
  intros Hprompt Hpatch. rewrite main_run, Hprompt, Hpatch.
  rewrite patch_unfold, rebind_run in Hpatch.
  destruct (py_compile env _) as [code | e1];
    [| now injection Hpatch as _ <- _].
  destruct (py_exec env code) as [ctx | e2];
    [| now injection Hpatch as _ <- _].
  destruct (ctx_getitem "deploy_solidity_contract" ctx) as [f | e3];
    [discriminate | now injection Hpatch as _ <- _].
Qed.

(** X10.  The order of what [main] does.  A run that returns has configured
    logging, constructed one client for host 127.0.0.1 and the [--port]
    option with the private key the account prompt returned for
    [--keystore-path], made the deployment calls for [CONTRACTS_TO_DEPLOY] in
    order, and printed once, last.  A run that raises has either stopped
    before constructing the client, or constructed it and made the deployment
    calls for the first entries of the list, and has printed nothing. *)
Theorem main_trace_order opts (s : @state World Compiled Client) :
  let '(r, _, evs) := main env opts s in
  match r with
  | Ok _ =>
      exists address_hex privatekey w devs text,
        prompt_account env (keystore_path opts) (world s)
        = (Ok (address_hex, privatekey), w)
        /\ evs = (ConfigureLogging
                    :: NewClient "127.0.0.1" (port opts) privatekey
                         (gas_price opts * 1000000000)
                    :: devs ++ [Print text])%list
        /\ Forall deployment_event devs
        /\ deploy_calls devs = map expected_call CONTRACTS_TO_DEPLOY
  | Raise _ =>
      evs = [ConfigureLogging]
      \/ exists address_hex privatekey w devs n,
           prompt_account env (keystore_path opts) (world s)
           = (Ok (address_hex, privatekey), w)
           /\ evs = ConfigureLogging
                      :: NewClient "127.0.0.1" (port opts) privatekey
                           (gas_price opts * 1000000000)
                      :: devs
           /\ Forall deployment_event devs
           /\ deploy_calls devs = map expected_call (firstn n CONTRACTS_TO_DEPLOY)
  end.
Proof.
  rewrite main_run.
  destruct (prompt_account env (keystore_path opts) (world s))
    as [[[address_hex privatekey] | e] w] eqn:Hprompt; [| now left].
  destruct (patch_deploy_solidity_contract env (set_world s w))
    as [[[[] | e] s2] evs2]; [| now left].
  cbv zeta.
  destruct (JSONRPCClient env "127.0.0.1" (port opts) privatekey
              (gas_price opts * 1000000000) (world s2)) as [[client | e] w3].
  - pose proof (deploy_all_run env client (set_world s2 w3)) as Hd.
    destruct (deploy_all env client (set_world s2 w3)) as [[[deployed | e] s4] evs].
    + destruct Hd as (Hevs & _ & Hcalls & _).
      destruct (main_output env (pretty opts) deployed s4)
        as [[[[] | e] s5] evs'] eqn:Eo.
      * destruct (main_output_ok env _ _ _ _ _ Eo)
          as (raw_e & a_e & raw_r & a_r & _ & _ & _ & _ & _ & ->).
        now eexists address_hex, privatekey, w, evs, _.
      * destruct (main_output_raise env _ _ _ _ _ _ Eo) as [_ ->].
        rewrite app_nil_r. right.
        exists address_hex, privatekey, w, evs, (length CONTRACTS_TO_DEPLOY).
        now rewrite firstn_all.
    + destruct Hd as (Hevs & _ & n & Hcalls). right.
      now exists address_hex, privatekey, w, evs, n.
  - right. exists address_hex, privatekey, w, [], 0%nat. repeat split. constructor.
Qed.

(** X11.  End to end: when the account prompt, the patch step, the client's
    construction, the compilation and both deployments go through, with
    dicts that hold no key twice and a second deployment that does not record
    [Registry]'s key, [main] returns and prints the result of [deploy_all]
    with the two top-level references mapped to the checksum form of the
    addresses their deployments returned, the same text the log lines
    showed.  The conversions of [main] cannot fail there: [deploy_file] has
    made them before. *)
Theorem main_prints_the_addresses_the_deployments_returned
    opts (s : @state World Compiled Client) address_hex privatekey w s2 evs2
    client w3 compiled w0 proxy1 written1 w1 checksum1 proxy2 written2 w2 checksum2 :
  prompt_account env (keystore_path opts) (world s)
  = (Ok (address_hex, privatekey), w) ->
  patch_deploy_solidity_contract env (set_world s w) = (Ok tt, s2, evs2) ->
  JSONRPCClient env "127.0.0.1" (port opts) privatekey
    (gas_price opts * 1000000000) w = (Ok client, w3) ->
  compile_files_cwd env (map (get_contract_path env) RAIDEN_CONTRACT_FILES) w3
  = (Ok compiled, w0) ->
  method s2 client "Registry" compiled [] "" "Registry.sol" w0
  = (Ok (proxy1, written1), w1) ->
  to_checksum_address env (contract_address proxy1) = Ok checksum1 ->
  method s2 client "EndpointRegistry" compiled [] "" "EndpointRegistry.sol" w1
  = (Ok (proxy2, written2), w2) ->
  to_checksum_address env (contract_address proxy2) = Ok checksum2 ->
  NoDup (keys written1) ->
  NoDup (keys written2) ->
  dict_get "Registry.sol:Registry" written2 = None ->
  let deployed :=
    dict_update
      (dict_update [] (dict_set "Registry.sol:Registry"
                         (contract_address proxy1) written1))
      (dict_set "EndpointRegistry.sol:EndpointRegistry"
         (contract_address proxy2) written2) in
  fst (fst (main env opts s)) = Ok tt
  /\ printed (snd (main env opts s))
     = [json_dumps
          (dict_set "Registry.sol:Registry" checksum1
             (dict_set "EndpointRegistry.sol:EndpointRegistry" checksum2 deployed))
          (if pretty opts then Some 2%nat else None)].
Proof.
  intros Hprompt Hpatch Hclient Hcompile Hcall1 Hsum1 Hcall2 Hsum2 Hnd1 Hnd2 Hnone
         deployed.
  destruct (merged_lookup written1 written2 (contract_address proxy1)
              (contract_address proxy2)) as [Hget2 Hget1].
  fold deployed in Hget1, Hget2.
  specialize (Hget2 Hnd2). specialize (Hget1 Hnd1 Hnd2 Hnone).
  pose proof (patch_quiet env (set_world s w)) as Hq. rewrite Hpatch in Hq.
  destruct Hq as [_ Hw]. cbn [set_world world] in Hw.
  rewrite main_run, Hprompt, Hpatch. cbv zeta. rewrite Hw, Hclient.
  rewrite deploy_all_two_steps. cbn [set_world world method_source method].
  rewrite Hcompile, deploy_file_run.
  cbn [partition Ascii.eqb Bool.eqb]. cbn [set_world world method].
  rewrite Hcall1, Hsum1, deploy_file_run.
  cbn [partition Ascii.eqb Bool.eqb]. cbn [set_world world method].
  rewrite Hcall2, Hsum2. fold deployed.
  rewrite main_output_run, Hget2, Hsum2. cbv zeta.
  rewrite dict_get_set_other by discriminate. rewrite Hget1, Hsum1.
  split; reflexivity.
Qed.

End Script.

(** ** The properties on the test double *)

Lemma mock_libraries_NoDup :
  NoDup (keys [("NettingChannelLibrary.sol:NettingChannelLibrary",
                Mock.netting_channel_library_address);
               ("ChannelManagerLibrary.sol:ChannelManagerLibrary",
                Mock.channel_manager_library_address)]).
Proof.
  cbn. constructor; [| constructor; [intros [] | constructor]].
  intros [H | []]. discriminate H.
Qed.

Lemma main_prints_the_addresses_the_deployments_returned_witness :
  fst (fst (main Mock.eip55 default_options (Mock.start Mock.upstream_source)))
  = Ok tt.
Proof.
  apply (main_prints_the_addresses_the_deployments_returned Mock.eip55
           default_options (Mock.start Mock.upstream_source)
           ("0x" ++ Mock.replicate 40 "e") "key" 0%nat Mock.patched []
           Mock.a_client 0%nat tt 0%nat
           {| contract_address := Mock.registry_address |}
           [("NettingChannelLibrary.sol:NettingChannelLibrary",
             Mock.netting_channel_library_address);
            ("ChannelManagerLibrary.sol:ChannelManagerLibrary",
             Mock.channel_manager_library_address)]
           3%nat "0xaAaAaAaaAaAaAaaAaAAAAAAAAaaaAaAaAaaAaaAa"
           {| contract_address := Mock.endpoint_registry_address |}
           [] 4%nat "0xbBbBBBBbbBBBbbbBbbBbbbbBBbBbbbbBbBbbBBbB"
           ltac:(reflexivity) ltac:(reflexivity) ltac:(reflexivity)
           ltac:(reflexivity) ltac:(reflexivity) ltac:(vm_compute; reflexivity)
           ltac:(reflexivity) ltac:(vm_compute; reflexivity)
           mock_libraries_NoDup ltac:(constructor) ltac:(reflexivity)).
Defined.

Lemma deploy_all_returns_the_merged_addresses_witness :
  NoDup (keys (@nil (string * string)))
  /\ dict_get "EndpointRegistry.sol:EndpointRegistry"
       (match fst (fst (deploy_all Mock.eip55 Mock.a_client Mock.patched)) with
        | Ok deployed => deployed
        | Raise _ => []
        end)
     = Some Mock.endpoint_registry_address.
Proof.
  split; [constructor |].
  pose proof (deploy_all_returns_the_merged_addresses Mock.eip55 Mock.a_client
              Mock.patched tt 0%nat
              {| contract_address := Mock.registry_address |}
              [("NettingChannelLibrary.sol:NettingChannelLibrary",
                Mock.netting_channel_library_address);
               ("ChannelManagerLibrary.sol:ChannelManagerLibrary",
                Mock.channel_manager_library_address)]
              3%nat "0xaAaAaAaaAaAaAaaAaAAAAAAAAaaaAaAaAaaAaaAa"
              {| contract_address := Mock.endpoint_registry_address |}
              [] 4%nat "0xbBbBBBBbbBBBbbbBbbBbbbbBBbBbbbbBbBbbBBbB"
              ltac:(reflexivity) ltac:(reflexivity) ltac:(vm_compute; reflexivity)
              ltac:(reflexivity) ltac:(vm_compute; reflexivity))
    as (Hrun & Hget & _).
  rewrite Hrun. cbn [fst]. apply Hget. constructor.
Defined.

Lemma deploy_all_loses_the_first_address_when_the_second_fails_witness :
  fst (fst (deploy_all Mock.eip55 Mock.a_client (Mock.failing "EndpointRegistry")))
  = Raise (OtherError "transaction reverted")
  /\ world (snd (fst (deploy_all Mock.eip55 Mock.a_client
                        (Mock.failing "EndpointRegistry")))) = 4%nat.
Proof.
  rewrite (deploy_all_loses_the_first_address_when_the_second_fails Mock.eip55
             Mock.a_client (Mock.failing "EndpointRegistry") tt 0%nat
             {| contract_address := Mock.registry_address |}
             [("NettingChannelLibrary.sol:NettingChannelLibrary",
               Mock.netting_channel_library_address);
              ("ChannelManagerLibrary.sol:ChannelManagerLibrary",
               Mock.channel_manager_library_address)]
             3%nat "0xaAaAaAaaAaAaAaaAaAAAAAAAAaaaAaAaAaaAaaAa"
             (OtherError "transaction reverted") 4%nat
             ltac:(reflexivity) ltac:(reflexivity) ltac:(vm_compute; reflexivity)
             ltac:(reflexivity)).
  split; reflexivity.
Defined.

Lemma deploy_all_stops_at_the_first_failure_witness :
  deploy_calls (snd (deploy_all Mock.eip55 Mock.a_client (Mock.failing "Registry")))
  = [("Registry", [], "", "Registry.sol")].
Proof.
  destruct (deploy_all_stops_at_the_first_failure Mock.eip55 Mock.a_client
              (Mock.failing "Registry") tt 0%nat
              (OtherError "transaction reverted")
              (set_world (Mock.failing "Registry") 1%nat)
              [LogInfo "Deploying Registry";
               DeployCall "Registry" [] "" "Registry.sol"]
              ltac:(reflexivity) ltac:(reflexivity))
    as (Hrun & Hcalls).
  rewrite Hrun. exact Hcalls.
Defined.

Lemma main_stops_when_the_patch_fails_witness :
  main Mock.eip55 default_options (Mock.start (Mock.copy_statement 4))
  = (Raise (TypeError "compile() arg 1 must be a string, bytes or AST object"),
     Mock.start (Mock.copy_statement 4), [ConfigureLogging]).
Proof.
  apply (main_stops_when_the_patch_fails Mock.eip55 default_options
           (Mock.start (Mock.copy_statement 4))
           ("0x" ++ Mock.replicate 40 "e") "key" 0%nat
           (TypeError "compile() arg 1 must be a string, bytes or AST object")
           (Mock.start (Mock.copy_statement 4)) []);
    reflexivity.
Defined.

End Extras.
